(** * helmath: the swizzle-capable vector core (vector.h and
    internal/swizzle2_class_macros.h), embedded shallowly.

    Member functions that may write their receiver are computations in a
    state-and-error monad whose state is the receiver object; out-of-place
    operators are functions.  The element type [T] of the class templates is
    an instance of [Numeric]; [double] is Rocq's binary64 [float], in which
    every NaN is one value.  A member whose text is ill-formed yields an
    error for every receiver. *)

From Stdlib Require Import ZArith Bool Lia Floats Setoid Morphisms.

Set Implicit Arguments.
Local Open Scope Z_scope.

(** ** Outcomes *)

(** Why a call yields no value.  The first two are the element type's native
    behaviour, which the vector layer does not intercept; the last three are
    what the C++ text itself rules out. *)
Inductive error : Type :=
| DivideByZero        (* integer division by zero *)
| CastOutOfRange      (* double -> integer conversion of an unrepresentable value *)
| NoSuchOperator      (* the class of the receiver declares no such operator *)
| VoidOperand         (* an expression of type void used where a value is needed *)
| DiscardsQualifier.  (* a non-const member function called on a const object *)

Inductive result (A : Type) : Type :=
| Ok (a : A)
| Err (e : error).
Arguments Ok {A} a.
Arguments Err {A} e.

(** A member function with receiver of type [S] and return type [A]. *)
Definition M (S A : Type) : Type := S -> result (A * S).

Definition ret {S A} (a : A) : M S A := fun s => Ok (a, s).

Definition bind {S A B} (m : M S A) (k : A -> M S B) : M S B :=
  fun s => match m s with
           | Ok (a, s') => k a s'
           | Err e => Err e
           end.

Definition fail {S A} (e : error) : M S A := fun _ => Err e.

Definition this {S} : M S S := fun s => Ok (s, s).

Definition put {S} (s : S) : M S unit := fun _ => Ok (tt, s).

Definition lift {S A} (r : result A) : M S A :=
  fun s => match r with Ok a => Ok (a, s) | Err e => Err e end.

(** The cv-qualifier of a member function: [const] after the parameter list,
    or none. *)
Inductive qualifier : Type :=
| Const
| NonConst.

(** A call of a member declared [callee] on [*this] inside a member declared
    [caller]: inside a const member [*this] is const, and only const members
    can be called on it. *)
Definition call_on_this (caller callee : qualifier) : result unit :=
  match caller, callee with
  | Const, NonConst => Err DiscardsQualifier
  | _, _ => Ok tt
  end.

(** A member function of a class template is checked as a whole when it is
    instantiated, that is at its first use: if its text fails a check no call
    of it runs, whatever the receiver and whichever path the call would have
    taken. *)
Definition checked {S A} (wf : result unit) (body : M S A) : M S A :=
  fun s => match wf with
           | Ok _ => body s
           | Err e => Err e
           end.

Declare Scope member_scope.
Delimit Scope member_scope with member.
Notation "x <- m ;; k" := (bind m (fun x => k))
  (at level 61, m at next level, right associativity) : member_scope.
Notation "m ;; k" := (bind m (fun _ => k))
  (at level 61, right associativity) : member_scope.

(** What a mutating operator hands back: nothing ([void]) or a reference to
    the object it was called on ([*this], or for a swizzle
    [*(Vec2<T> * ) this], the parent that shares the swizzle's address). *)
Inductive retval : Type :=
| RetVoid
| RetSelf.

(** A call expression of declared return type [r] used to initialise a
    vector: [void] initialises nothing. *)
Definition initialiser (r : retval) : result unit :=
  match r with
  | RetVoid => Err VoidOperand
  | RetSelf => Ok tt
  end.

(** The value seen through a returned reference, in the state after the
    call. *)
Definition deref {S} (r : retval) (s : S) : option S :=
  match r with
  | RetVoid => None
  | RetSelf => Some s
  end.

(** The returned [retval] of a call, when the call returns. *)
Definition ret_of {S} (m : M S retval) (s : S) : option retval :=
  match m s with
  | Ok (r, _) => Some r
  | Err _ => None
  end.

(** The receiver after the call, when the call returns. *)
Definition state_after {S A} (m : M S A) (s : S) : option S :=
  match m s with
  | Ok (_, s') => Some s'
  | Err _ => None
  end.

(** The call returns nothing usable as a value: its type is [void]. *)
Definition returns_void {S} (m : M S retval) : Prop :=
  forall s, match m s with
            | Ok (r, _) => r = RetVoid
            | Err _ => True
            end.

(** The value of the call expression [m] evaluated on receiver [s]. *)
Definition value_of {S} (m : M S retval) (s : S) : option S :=
  match m s with
  | Ok (r, s') => deref r s'
  | Err _ => None
  end.

(** ** Element types *)

(** [template<typename T>]: what the vector classes use of [T].  [sqrt_d] is
    [std::sqrt] applied to a [T] and widened to [double]; [to_double] and
    [of_double] are the implicit conversions and [static_cast<T>].  [T] is
    taken to be its own promoted type ([int] and wider, [double]), so that
    [x * x + y * y] is computed in [T]. *)
Class Numeric (T : Type) : Type := {
  zero : T;
  add : T -> T -> T;
  sub : T -> T -> T;
  mul : T -> T -> T;
  neg : T -> T;
  div : T -> T -> result T;
  sqrt_d : T -> float;
  to_double : T -> float;
  of_double : float -> result T
}.

(** [!len] for a [double]: true exactly when [len == 0.0]. *)
Definition is_zero (len : float) : bool := PrimFloat.eqb len 0%float.

(** [double]. *)
Module Double.
#[global] Instance numeric : Numeric float := {|
  zero := 0%float;
  add := PrimFloat.add;
  sub := PrimFloat.sub;
  mul := PrimFloat.mul;
  neg := PrimFloat.opp;
  div := fun a b => Ok (PrimFloat.div a b);
  sqrt_d := PrimFloat.sqrt;
  to_double := fun a => a;
  of_double := fun d => Ok d
|}.
End Double.

(** [unsigned int], 32 bits: a value is its representative in [0, 2^32). *)
Module UInt.
Definition modulus : Z := 2 ^ 32.

Definition wrap (z : Z) : Z := z mod modulus.

(** Exact for every 32-bit value. *)
Definition as_double (z : Z) : float := PrimFloat.of_uint63 (Uint63.of_Z z).

(** Truncation toward zero of a finite double. *)
Definition truncate (d : float) : option Z :=
  match Prim2SF d with
  | S754_zero _ => Some 0
  | S754_finite s m e =>
      let a := Z.shiftl (Zpos m) e in
      Some (if s then - a else a)
  | S754_infinity _ => None
  | S754_nan => None
  end.

Definition from_double (d : float) : result Z :=
  match truncate d with
  | Some z => if (0 <=? z) && (z <? modulus) then Ok z else Err CastOutOfRange
  | None => Err CastOutOfRange
  end.

#[global] Instance numeric : Numeric Z := {|
  zero := 0;
  add := fun a b => wrap (a + b);
  sub := fun a b => wrap (a - b);
  mul := fun a b => wrap (a * b);
  neg := fun a => wrap (- a);
  div := fun a b => if b =? 0 then Err DivideByZero else Ok (a / b);
  sqrt_d := fun a => PrimFloat.sqrt (as_double a);
  to_double := as_double;
  of_double := from_double
|}.
End UInt.

(** The conversion of an integer literal to [T], as in [normal * 2]. *)
Class Literal (T : Type) : Type := { of_int : Z -> T }.

(** [int] to [double]; exact below 2^53 in magnitude. *)
Definition double_of_Z (z : Z) : float :=
  if z <? 0 then PrimFloat.opp (UInt.as_double (- z)) else UInt.as_double z.

#[global] Instance Double_literal : Literal float := {| of_int := double_of_Z |}.

#[global] Instance UInt_literal : Literal Z := {| of_int := UInt.wrap |}.

Local Open Scope member_scope.

(** ** Vec2 *)

(** Index of a backing element of [T v[2]].  The swizzle class templates
    take [int A, int B]; they are private to [Vec2] and instantiated only by
    its swizzle members, at indices 0 and 1. *)
Inductive idx2 : Type := I0 | I1.

Definition idx2_eqb (a b : idx2) : bool :=
  match a, b with
  | I0, I0 => true
  | I1, I1 => true
  | _, _ => false
  end.

Module Vec2.
Section Class.
Context {T : Type} {N : Numeric T}.

(** The anonymous union: [x]/[y], [s]/[t], [v[2]] and every swizzle
    member name the same two elements. *)
Record t : Type := mk { x : T; y : T }.

Definition s (v : t) : T := x v.
Definition t_ (v : t) : T := y v.

(** [v[i]] read and written. *)
Definition get (v : t) (i : idx2) : T :=
  match i with I0 => x v | I1 => y v end.

Definition set (v : t) (i : idx2) (a : T) : t :=
  match i with I0 => mk a (y v) | I1 => mk (x v) a end.

(** Constructors [Vec2()], [explicit Vec2(T val)], [Vec2(T x, T y)]. *)
Definition ctor0 : t := mk zero zero.
Definition ctor1 (val : T) : t := mk val val.
Definition ctor2 (x0 y0 : T) : t := mk x0 y0.

(** [x op= e] and [y op= e] on the receiver.  A right operand passed by
    const reference is modelled by its value at the call: it is an object
    other than the receiver. *)
Definition upd_x (f : T -> result T) : M t unit :=
  v <- this ;; a <- lift (f (x v)) ;; put (mk a (y v)).

Definition upd_y (f : T -> result T) : M t unit :=
  v <- this ;; a <- lift (f (y v)) ;; put (mk (x v) a).

(** [inline double length()]: declared without [const]. *)
Definition length (v : t) : float :=
  sqrt_d (add (mul (x v) (x v)) (mul (y v) (y v))).

Definition length_qualifier : qualifier := NonConst.

Definition op_neg (v : t) : t := mk (neg (x v)) (neg (y v)).

Definition op_add (v rhs : t) : t := mk (add (x v) (x rhs)) (add (y v) (y rhs)).
Definition op_sub (v rhs : t) : t := mk (sub (x v) (x rhs)) (sub (y v) (y rhs)).
Definition op_mul (v rhs : t) : t := mk (mul (x v) (x rhs)) (mul (y v) (y rhs)).
Definition op_div (v rhs : t) : result t :=
  match div (x v) (x rhs), div (y v) (y rhs) with
  | Ok a, Ok b => Ok (mk a b)
  | Err e, _ => Err e
  | _, Err e => Err e
  end.

(** [operator+=(const Vec2<T> &rhs)]: the body reads
    [x /= rhs.x; y /= rhs.y;]. *)
Definition op_add_assign (rhs : t) : M t retval :=
  upd_x (fun a => div a (x rhs)) ;;
  upd_y (fun a => div a (y rhs)) ;;
  ret RetVoid.

Definition op_sub_assign (rhs : t) : M t retval :=
  upd_x (fun a => Ok (sub a (x rhs))) ;;
  upd_y (fun a => Ok (sub a (y rhs))) ;;
  ret RetVoid.

(** [operator*=(const Vec2<T> &rhs)]: the body reads
    [x *= rhs.x; y *= rhs.x;]. *)
Definition op_mul_assign (rhs : t) : M t retval :=
  upd_x (fun a => Ok (mul a (x rhs))) ;;
  upd_y (fun a => Ok (mul a (x rhs))) ;;
  ret RetVoid.

Definition op_div_assign (rhs : t) : M t retval :=
  upd_x (fun a => div a (x rhs)) ;;
  upd_y (fun a => div a (y rhs)) ;;
  ret RetVoid.

Definition op_add_s (v : t) (rhs : T) : t := mk (add (x v) rhs) (add (y v) rhs).
Definition op_sub_s (v : t) (rhs : T) : t := mk (sub (x v) rhs) (sub (y v) rhs).
Definition op_mul_s (v : t) (rhs : T) : t := mk (mul (x v) rhs) (mul (y v) rhs).
Definition op_div_s (v : t) (rhs : T) : result t :=
  match div (x v) rhs, div (y v) rhs with
  | Ok a, Ok b => Ok (mk a b)
  | Err e, _ => Err e
  | _, Err e => Err e
  end.

Definition op_add_assign_s (rhs : T) : M t retval :=
  upd_x (fun a => Ok (add a rhs)) ;;
  upd_y (fun a => Ok (add a rhs)) ;;
  ret RetVoid.

Definition op_sub_assign_s (rhs : T) : M t retval :=
  upd_x (fun a => Ok (sub a rhs)) ;;
  upd_y (fun a => Ok (sub a rhs)) ;;
  ret RetVoid.

Definition op_mul_assign_s (rhs : T) : M t retval :=
  upd_x (fun a => Ok (mul a rhs)) ;;
  upd_y (fun a => Ok (mul a rhs)) ;;
  ret RetVoid.

Definition op_div_assign_s (rhs : T) : M t retval :=
  upd_x (fun a => div a rhs) ;;
  upd_y (fun a => div a rhs) ;;
  ret RetVoid.

(** [normalize()].  In [*this /= len] only [operator/=(T)] is viable (the
    one-argument constructor is explicit), so [len] is converted to
    [T]. *)
Definition normalize : M t unit :=
  v <- this ;;
  let len := length v in
  if is_zero len then ret tt
  else
    rhs <- lift (of_double len) ;;
    op_div_assign_s rhs ;;
    ret tt.

(** [normalized() const]: its first statement, [double len = length();],
    calls [length()] on the const [*this]. *)
Definition normalized : M t t :=
  checked (call_on_this Const length_qualifier)
    (v <- this ;;
     let len := length v in
     if is_zero len then ret ctor0
     else
       a <- lift (of_double (PrimFloat.div (to_double (x v)) len)) ;;
       b <- lift (of_double (PrimFloat.div (to_double (y v)) len)) ;;
       ret (ctor2 a b)).

(** [dot(const Vec2<T> &v)]: the sum of products is formed in [T] and
    returned as a [double]. *)
Definition dot (v w : t) : float :=
  to_double (add (mul (x v) (x w)) (mul (y v) (y w))).
End Class.
Arguments t T : clear implicits.
End Vec2.


(** ** The swizzle classes of Vec2

    A swizzle member lives in the anonymous union of its parent, so its own
    [T v[2]] is the parent's storage: the receiver state of a swizzle member
    function is the parent [Vec2.t]. *)

(** [v[A]] of the swizzle, read and updated in place. *)
Definition load {T} (A : idx2) : M (Vec2.t T) T :=
  v <- this ;; ret (Vec2.get v A).

Definition store {T} (A : idx2) (a : T) : M (Vec2.t T) unit :=
  v <- this ;; put (Vec2.set v A a).

Definition update {T} (A : idx2) (f : T -> result T) : M (Vec2.t T) unit :=
  a <- load A ;; a' <- lift (f a) ;; store A a'.

(** A right operand passed as [const Vec2<T> &rhs] to a member that writes:
    another object, known by its value, or the parent itself, whose
    components are read as they are stored at the time of each read. *)
Inductive operand (T : Type) : Type :=
| Other (w : Vec2.t T)
| Parent.
Arguments Other {T} w.
Arguments Parent {T}.

(** [rhs.x] and [rhs.y], read now. *)
Definition rhs_x {T} (rhs : operand T) : M (Vec2.t T) T :=
  match rhs with
  | Other w => ret (Vec2.x w)
  | Parent => v <- this ;; ret (Vec2.x v)
  end.

Definition rhs_y {T} (rhs : operand T) : M (Vec2.t T) T :=
  match rhs with
  | Other w => ret (Vec2.y w)
  | Parent => v <- this ;; ret (Vec2.y v)
  end.

(** [template<int A, int B> class _Swizzle] (HM_SWIZZLE2_TEMPLATE_CLASS). *)
Module Swizzle2.
Section Class.
Context {T : Type} {N : Numeric T}.
Variables A B : idx2.

(** [v[A] = rhs.x; v[B] = rhs.y;]: [rhs.y] is read after [v[A]] is
    written. *)
Definition op_assign (rhs : operand T) : M (Vec2.t T) retval :=
  a <- rhs_x rhs ;; store A a ;;
  b <- rhs_y rhs ;; store B b ;;
  ret RetSelf.

(** [operator Vec2()]. *)
Definition to_Vec2 : M (Vec2.t T) (Vec2.t T) :=
  a <- load A ;; b <- load B ;; ret (Vec2.ctor2 a b).

(** [operator()()]. *)
Definition op_call : M (Vec2.t T) retval := ret RetSelf.

Definition op_add (rhs : Vec2.t T) : M (Vec2.t T) (Vec2.t T) :=
  a <- load A ;; b <- load B ;;
  ret (Vec2.ctor2 (add a (Vec2.x rhs)) (add b (Vec2.y rhs))).

Definition op_sub (rhs : Vec2.t T) : M (Vec2.t T) (Vec2.t T) :=
  a <- load A ;; b <- load B ;;
  ret (Vec2.ctor2 (sub a (Vec2.x rhs)) (sub b (Vec2.y rhs))).

Definition op_mul (rhs : Vec2.t T) : M (Vec2.t T) (Vec2.t T) :=
  a <- load A ;; b <- load B ;;
  ret (Vec2.ctor2 (mul a (Vec2.x rhs)) (mul b (Vec2.y rhs))).

Definition op_div (rhs : Vec2.t T) : M (Vec2.t T) (Vec2.t T) :=
  a <- load A ;; b <- load B ;;
  a' <- lift (div a (Vec2.x rhs)) ;; b' <- lift (div b (Vec2.y rhs)) ;;
  ret (Vec2.ctor2 a' b').

Definition op_add_assign (rhs : operand T) : M (Vec2.t T) retval :=
  r <- rhs_x rhs ;; update A (fun c => Ok (add c r)) ;;
  r <- rhs_y rhs ;; update B (fun c => Ok (add c r)) ;;
  ret RetSelf.

Definition op_sub_assign (rhs : operand T) : M (Vec2.t T) retval :=
  r <- rhs_x rhs ;; update A (fun c => Ok (sub c r)) ;;
  r <- rhs_y rhs ;; update B (fun c => Ok (sub c r)) ;;
  ret RetSelf.

Definition op_mul_assign (rhs : operand T) : M (Vec2.t T) retval :=
  r <- rhs_x rhs ;; update A (fun c => Ok (mul c r)) ;;
  r <- rhs_y rhs ;; update B (fun c => Ok (mul c r)) ;;
  ret RetSelf.

Definition op_div_assign (rhs : operand T) : M (Vec2.t T) retval :=
  r <- rhs_x rhs ;; update A (fun c => div c r) ;;
  r <- rhs_y rhs ;; update B (fun c => div c r) ;;
  ret RetSelf.

Definition op_add_s (rhs : T) : M (Vec2.t T) (Vec2.t T) :=
  a <- load A ;; b <- load B ;; ret (Vec2.ctor2 (add a rhs) (add b rhs)).

Definition op_sub_s (rhs : T) : M (Vec2.t T) (Vec2.t T) :=
  a <- load A ;; b <- load B ;; ret (Vec2.ctor2 (sub a rhs) (sub b rhs)).

Definition op_mul_s (rhs : T) : M (Vec2.t T) (Vec2.t T) :=
  a <- load A ;; b <- load B ;; ret (Vec2.ctor2 (mul a rhs) (mul b rhs)).

Definition op_div_s (rhs : T) : M (Vec2.t T) (Vec2.t T) :=
  a <- load A ;; b <- load B ;;
  a' <- lift (div a rhs) ;; b' <- lift (div b rhs) ;;
  ret (Vec2.ctor2 a' b').

Definition op_add_assign_s (rhs : T) : M (Vec2.t T) retval :=
  update A (fun a => Ok (add a rhs)) ;;
  update B (fun b => Ok (add b rhs)) ;;
  ret RetSelf.

Definition op_sub_assign_s (rhs : T) : M (Vec2.t T) retval :=
  update A (fun a => Ok (sub a rhs)) ;;
  update B (fun b => Ok (sub b rhs)) ;;
  ret RetSelf.

Definition op_mul_assign_s (rhs : T) : M (Vec2.t T) retval :=
  update A (fun a => Ok (mul a rhs)) ;;
  update B (fun b => Ok (mul b rhs)) ;;
  ret RetSelf.

Definition op_div_assign_s (rhs : T) : M (Vec2.t T) retval :=
  update A (fun a => div a rhs) ;;
  update B (fun b => div b rhs) ;;
  ret RetSelf.
End Class.
End Swizzle2.

(** [template<int A> class _Swizzle<A, A>] (HM_SWIZZLE2_TEMPLATE_CLASS_SPEC):
    the conversion, [operator()] and the eight out-of-place operators; no
    [operator=] and no compound assignment. *)
Module Swizzle2Spec.
Section Class.
Context {T : Type} {N : Numeric T}.
Variable A : idx2.

(** [operator Vec2()]: [Vec2<T>{v[A]}], the one-argument constructor. *)
Definition to_Vec2 : M (Vec2.t T) (Vec2.t T) :=
  a <- load A ;; ret (Vec2.ctor1 a).

Definition op_call : M (Vec2.t T) retval := ret RetSelf.

Definition op_add (rhs : Vec2.t T) : M (Vec2.t T) (Vec2.t T) :=
  a <- load A ;; ret (Vec2.ctor2 (add a (Vec2.x rhs)) (add a (Vec2.y rhs))).

Definition op_sub (rhs : Vec2.t T) : M (Vec2.t T) (Vec2.t T) :=
  a <- load A ;; ret (Vec2.ctor2 (sub a (Vec2.x rhs)) (sub a (Vec2.y rhs))).

Definition op_mul (rhs : Vec2.t T) : M (Vec2.t T) (Vec2.t T) :=
  a <- load A ;; ret (Vec2.ctor2 (mul a (Vec2.x rhs)) (mul a (Vec2.y rhs))).

Definition op_div (rhs : Vec2.t T) : M (Vec2.t T) (Vec2.t T) :=
  a <- load A ;;
  a' <- lift (div a (Vec2.x rhs)) ;; b' <- lift (div a (Vec2.y rhs)) ;;
  ret (Vec2.ctor2 a' b').

Definition op_add_s (rhs : T) : M (Vec2.t T) (Vec2.t T) :=
  a <- load A ;; ret (Vec2.ctor2 (add a rhs) (add a rhs)).

Definition op_sub_s (rhs : T) : M (Vec2.t T) (Vec2.t T) :=
  a <- load A ;; ret (Vec2.ctor2 (sub a rhs) (sub a rhs)).

Definition op_mul_s (rhs : T) : M (Vec2.t T) (Vec2.t T) :=
  a <- load A ;; ret (Vec2.ctor2 (mul a rhs) (mul a rhs)).

Definition op_div_s (rhs : T) : M (Vec2.t T) (Vec2.t T) :=
  a <- load A ;;
  a' <- lift (div a rhs) ;; b' <- lift (div a rhs) ;;
  ret (Vec2.ctor2 a' b').
End Class.
End Swizzle2Spec.

(** *** Swizzle members of a Vec2 *)

(** The class a member declared [_Swizzle<A, B>] instantiates: the partial
    specialisation whenever both arguments are the same index. *)
Inductive swizzle2 : Type :=
| Primary (A B : idx2)
| Repeated (A : idx2).

Definition instantiate (A B : idx2) : swizzle2 :=
  if idx2_eqb A B then Repeated A else Primary A B.

(** Modelled from the spec: the member list HM_VEC2_SWIZZLES of swizzle.h is
    not among the sources; each member is named by the concatenation of the
    labels of its index tuple, in both label schemes. *)
Definition xx : swizzle2 := instantiate I0 I0.

(** Modelled from the spec: member [xy] of HM_VEC2_SWIZZLES, tuple (0,1). *)
Definition xy : swizzle2 := instantiate I0 I1.

(** Modelled from the spec: member [yx] of HM_VEC2_SWIZZLES, tuple (1,0). *)
Definition yx : swizzle2 := instantiate I1 I0.

(** Modelled from the spec: member [yy] of HM_VEC2_SWIZZLES, tuple (1,1). *)
Definition yy : swizzle2 := instantiate I1 I1.

(** Modelled from the spec: the texture-coordinate names of the same four
    members. *)
Definition ss : swizzle2 := xx.

(** Modelled from the spec: [st] is [xy]. *)
Definition st : swizzle2 := xy.

(** Modelled from the spec: [ts] is [yx]. *)
Definition ts : swizzle2 := yx.

(** Modelled from the spec: [tt] is [yy]. *)
Definition tt_ : swizzle2 := yy.

(** Expressions on a swizzle member [m] of the parent: [m = rhs],
    [Vec2<T> r = m], [m += rhs] and so on, resolved against the class of
    [m]. *)
Section Members.
Context {T : Type} {N : Numeric T}.

(** [m = rhs] for a right operand that is or is not the parent. *)
Definition swizzle_assign_ref (m : swizzle2) (rhs : operand T) : M (Vec2.t T) retval :=
  match m with
  | Primary A B => Swizzle2.op_assign A B rhs
  | Repeated _ => fail NoSuchOperator
  end.

(** [m = rhs] for [rhs] an object other than the parent, a temporary for
    instance. *)
Definition swizzle_assign (m : swizzle2) (rhs : Vec2.t T) : M (Vec2.t T) retval :=
  swizzle_assign_ref m (Other rhs).

Definition swizzle_read (m : swizzle2) : M (Vec2.t T) (Vec2.t T) :=
  match m with
  | Primary A B => Swizzle2.to_Vec2 A B
  | Repeated A => Swizzle2Spec.to_Vec2 A
  end.

(** The eight compound assignments, by operator and kind of right operand;
    a vector operand is an object other than the parent. *)
Inductive compound : Type :=
| AddAssign (rhs : Vec2.t T)
| SubAssign (rhs : Vec2.t T)
| MulAssign (rhs : Vec2.t T)
| DivAssign (rhs : Vec2.t T)
| AddAssignS (rhs : T)
| SubAssignS (rhs : T)
| MulAssignS (rhs : T)
| DivAssignS (rhs : T).

Definition swizzle_compound (m : swizzle2) (op : compound) : M (Vec2.t T) retval :=
  match m with
  | Primary A B =>
      match op with
      | AddAssign rhs => Swizzle2.op_add_assign A B (Other rhs)
      | SubAssign rhs => Swizzle2.op_sub_assign A B (Other rhs)
      | MulAssign rhs => Swizzle2.op_mul_assign A B (Other rhs)
      | DivAssign rhs => Swizzle2.op_div_assign A B (Other rhs)
      | AddAssignS rhs => Swizzle2.op_add_assign_s A B rhs
      | SubAssignS rhs => Swizzle2.op_sub_assign_s A B rhs
      | MulAssignS rhs => Swizzle2.op_mul_assign_s A B rhs
      | DivAssignS rhs => Swizzle2.op_div_assign_s A B rhs
      end
  | Repeated _ => fail NoSuchOperator
  end.

(** [m += m's parent] and the like: the compound assignments whose vector
    operand is the parent itself. *)
Inductive compound_parent : Type :=
| AddAssignParent
| SubAssignParent
| MulAssignParent
| DivAssignParent.

Definition swizzle_compound_parent (m : swizzle2) (op : compound_parent)
  : M (Vec2.t T) retval :=
  match m with
  | Primary A B =>
      match op with
      | AddAssignParent => Swizzle2.op_add_assign A B Parent
      | SubAssignParent => Swizzle2.op_sub_assign A B Parent
      | MulAssignParent => Swizzle2.op_mul_assign A B Parent
      | DivAssignParent => Swizzle2.op_div_assign A B Parent
      end
  | Repeated _ => fail NoSuchOperator
  end.
End Members.
Arguments compound T : clear implicits.


(** ** Vec3 *)

Module Vec3.
Section Class.
Context {T : Type} {N : Numeric T}.

(** The anonymous union: [x]/[y]/[z], [r]/[g]/[b], [s]/[t]/[p] and [v[3]]
    name the same three elements. *)
Record t : Type := mk { x : T; y : T; z : T }.

(** Constructors [Vec3()], [explicit Vec3(T val)] and the component list. *)
Definition ctor0 : t := mk zero zero zero.
Definition ctor1 (val : T) : t := mk val val val.
Definition ctor3 (x0 y0 z0 : T) : t := mk x0 y0 z0.

(** [x op= e], ... on the receiver. *)
Definition upd_x (f : T -> result T) : M t unit :=
  v <- this ;; a <- lift (f (x v)) ;; put (mk a (y v) (z v)).

Definition upd_y (f : T -> result T) : M t unit :=
  v <- this ;; a <- lift (f (y v)) ;; put (mk (x v) a (z v)).

Definition upd_z (f : T -> result T) : M t unit :=
  v <- this ;; a <- lift (f (z v)) ;; put (mk (x v) (y v) a).

(** [inline double length() const]. *)
Definition length (v : t) : float :=
  sqrt_d
    (add (add (mul (x v) (x v)) (mul (y v) (y v))) (mul (z v) (z v))).

Definition length_qualifier : qualifier := Const.

Definition op_neg (v : t) : t := mk (neg (x v)) (neg (y v)) (neg (z v)).

Definition op_add (v rhs : t) : t :=
  mk (add (x v) (x rhs))
     (add (y v) (y rhs))
     (add (z v) (z rhs)).

Definition op_sub (v rhs : t) : t :=
  mk (sub (x v) (x rhs))
     (sub (y v) (y rhs))
     (sub (z v) (z rhs)).

Definition op_mul (v rhs : t) : t :=
  mk (mul (x v) (x rhs))
     (mul (y v) (y rhs))
     (mul (z v) (z rhs)).

Definition op_div (v : t) (rhs : t) : result t :=
  match div (x v) (x rhs) with
  | Err e => Err e
  | Ok x' =>
      match div (y v) (y rhs) with
      | Err e => Err e
      | Ok y' =>
          match div (z v) (z rhs) with
          | Err e => Err e
          | Ok z' =>
              Ok (mk x' y' z')
          end
      end
  end.

Definition op_add_assign (rhs : t) : M t retval :=
  upd_x (fun a => Ok (add a (x rhs))) ;;
  upd_y (fun a => Ok (add a (y rhs))) ;;
  upd_z (fun a => Ok (add a (z rhs))) ;;
  ret RetVoid.

Definition op_sub_assign (rhs : t) : M t retval :=
  upd_x (fun a => Ok (sub a (x rhs))) ;;
  upd_y (fun a => Ok (sub a (y rhs))) ;;
  upd_z (fun a => Ok (sub a (z rhs))) ;;
  ret RetVoid.

Definition op_mul_assign (rhs : t) : M t retval :=
  upd_x (fun a => Ok (mul a (x rhs))) ;;
  upd_y (fun a => Ok (mul a (y rhs))) ;;
  upd_z (fun a => Ok (mul a (z rhs))) ;;
  ret RetVoid.

Definition op_div_assign (rhs : t) : M t retval :=
  upd_x (fun a => div a (x rhs)) ;;
  upd_y (fun a => div a (y rhs)) ;;
  upd_z (fun a => div a (z rhs)) ;;
  ret RetVoid.

Definition op_add_s (v : t) (rhs : T) : t :=
  mk (add (x v) rhs) (add (y v) rhs) (add (z v) rhs).

Definition op_sub_s (v : t) (rhs : T) : t :=
  mk (sub (x v) rhs) (sub (y v) rhs) (sub (z v) rhs).

Definition op_mul_s (v : t) (rhs : T) : t :=
  mk (mul (x v) rhs) (mul (y v) rhs) (mul (z v) rhs).

Definition op_div_s (v : t) (rhs : T) : result t :=
  match div (x v) rhs with
  | Err e => Err e
  | Ok x' =>
      match div (y v) rhs with
      | Err e => Err e
      | Ok y' =>
          match div (z v) rhs with
          | Err e => Err e
          | Ok z' =>
              Ok (mk x' y' z')
          end
      end
  end.

Definition op_add_assign_s (rhs : T) : M t retval :=
  upd_x (fun a => Ok (add a rhs)) ;;
  upd_y (fun a => Ok (add a rhs)) ;;
  upd_z (fun a => Ok (add a rhs)) ;;
  ret RetVoid.

Definition op_sub_assign_s (rhs : T) : M t retval :=
  upd_x (fun a => Ok (sub a rhs)) ;;
  upd_y (fun a => Ok (sub a rhs)) ;;
  upd_z (fun a => Ok (sub a rhs)) ;;
  ret RetVoid.

Definition op_mul_assign_s (rhs : T) : M t retval :=
  upd_x (fun a => Ok (mul a rhs)) ;;
  upd_y (fun a => Ok (mul a rhs)) ;;
  upd_z (fun a => Ok (mul a rhs)) ;;
  ret RetVoid.

Definition op_div_assign_s (rhs : T) : M t retval :=
  upd_x (fun a => div a rhs) ;;
  upd_y (fun a => div a rhs) ;;
  upd_z (fun a => div a rhs) ;;
  ret RetVoid.

Definition normalize : M t unit :=
  v <- this ;;
  let len := length v in
  if is_zero len then ret tt
  else
    rhs <- lift (of_double len) ;;
    op_div_assign_s rhs ;;
    ret tt.

(** [normalized() const]; [length()] is const here. *)
Definition normalized : M t t :=
  checked (call_on_this Const length_qualifier)
    (v <- this ;;
     let len := length v in
     if is_zero len then ret ctor0
     else
       a <- lift (of_double (PrimFloat.div (to_double (x v)) len)) ;;
       b <- lift (of_double (PrimFloat.div (to_double (y v)) len)) ;;
       c <- lift (of_double (PrimFloat.div (to_double (z v)) len)) ;;
       ret (ctor3 a b c)).

Definition cross (v v' : t) : t :=
  mk (sub (mul (y v) (z v')) (mul (z v) (y v')))
     (sub (mul (z v) (x v')) (mul (x v) (z v')))
     (sub (mul (x v) (y v')) (mul (y v) (x v'))).

Definition dot (v w : t) : float :=
  to_double (add (add (mul (x v) (x w)) (mul (y v) (y w))) (mul (z v) (z w))).

Context {L : Literal T}.

(** [reflect(const Vec3<T> normal)]: [*this -= normal * 2 * dot(normal);].
    Both products are [operator*(T)]: the literal and then the [double]
    returned by [dot] are converted to [T]. *)
Definition reflect (normal : t) : M t unit :=
  v <- this ;;
  k <- lift (of_double (dot v normal)) ;;
  op_sub_assign (op_mul_s (op_mul_s normal (of_int 2)) k) ;;
  ret tt.

(** [reflected(const Vec3<T> normal) const]:
    [return *this - normal * 2 * dot(normal);]. *)
Definition reflected (v normal : t) : result t :=
  match of_double (dot v normal) with
  | Ok k => Ok (op_sub v (op_mul_s (op_mul_s normal (of_int 2)) k))
  | Err e => Err e
  end.

End Class.
Arguments t T : clear implicits.
End Vec3.

(** ** Vec4 *)

Module Vec4.
Section Class.
Context {T : Type} {N : Numeric T}.

(** The anonymous union: [x]/[y]/[z]/[w], [r]/[g]/[b]/[a], [s]/[t]/[p]/[q]
    and [v[4]] name the same four elements. *)
Record t : Type := mk { x : T; y : T; z : T; w : T }.

(** Constructors [Vec4()], [explicit Vec4(T val)] and the component list. *)
Definition ctor0 : t := mk zero zero zero zero.
Definition ctor1 (val : T) : t := mk val val val val.
Definition ctor4 (x0 y0 z0 w0 : T) : t := mk x0 y0 z0 w0.

(** [x op= e], ... on the receiver. *)
Definition upd_x (f : T -> result T) : M t unit :=
  v <- this ;; a <- lift (f (x v)) ;; put (mk a (y v) (z v) (w v)).

Definition upd_y (f : T -> result T) : M t unit :=
  v <- this ;; a <- lift (f (y v)) ;; put (mk (x v) a (z v) (w v)).

Definition upd_z (f : T -> result T) : M t unit :=
  v <- this ;; a <- lift (f (z v)) ;; put (mk (x v) (y v) a (w v)).

Definition upd_w (f : T -> result T) : M t unit :=
  v <- this ;; a <- lift (f (w v)) ;; put (mk (x v) (y v) (z v) a).

(** [inline double length() const]. *)
Definition length (v : t) : float :=
  sqrt_d
    (add (add (add (mul (x v) (x v)) (mul (y v) (y v))) (mul (z v) (z v)))
         (mul (w v) (w v))).

Definition length_qualifier : qualifier := Const.

Definition op_neg (v : t) : t := mk (neg (x v)) (neg (y v)) (neg (z v)) (neg (w v)).

Definition op_add (v rhs : t) : t :=
  mk (add (x v) (x rhs))
     (add (y v) (y rhs))
     (add (z v) (z rhs))
     (add (w v) (w rhs)).

Definition op_sub (v rhs : t) : t :=
  mk (sub (x v) (x rhs))
     (sub (y v) (y rhs))
     (sub (z v) (z rhs))
     (sub (w v) (w rhs)).

Definition op_mul (v rhs : t) : t :=
  mk (mul (x v) (x rhs))
     (mul (y v) (y rhs))
     (mul (z v) (z rhs))
     (mul (w v) (w rhs)).

Definition op_div (v : t) (rhs : t) : result t :=
  match div (x v) (x rhs) with
  | Err e => Err e
  | Ok x' =>
      match div (y v) (y rhs) with
      | Err e => Err e
      | Ok y' =>
          match div (z v) (z rhs) with
          | Err e => Err e
          | Ok z' =>
              match div (w v) (w rhs) with
              | Err e => Err e
              | Ok w' =>
                  Ok (mk x' y' z' w')
              end
          end
      end
  end.

Definition op_add_assign (rhs : t) : M t retval :=
  upd_x (fun a => Ok (add a (x rhs))) ;;
  upd_y (fun a => Ok (add a (y rhs))) ;;
  upd_z (fun a => Ok (add a (z rhs))) ;;
  upd_w (fun a => Ok (add a (w rhs))) ;;
  ret RetVoid.

Definition op_sub_assign (rhs : t) : M t retval :=
  upd_x (fun a => Ok (sub a (x rhs))) ;;
  upd_y (fun a => Ok (sub a (y rhs))) ;;
  upd_z (fun a => Ok (sub a (z rhs))) ;;
  upd_w (fun a => Ok (sub a (w rhs))) ;;
  ret RetVoid.

Definition op_mul_assign (rhs : t) : M t retval :=
  upd_x (fun a => Ok (mul a (x rhs))) ;;
  upd_y (fun a => Ok (mul a (y rhs))) ;;
  upd_z (fun a => Ok (mul a (z rhs))) ;;
  upd_w (fun a => Ok (mul a (w rhs))) ;;
  ret RetVoid.

Definition op_div_assign (rhs : t) : M t retval :=
  upd_x (fun a => div a (x rhs)) ;;
  upd_y (fun a => div a (y rhs)) ;;
  upd_z (fun a => div a (z rhs)) ;;
  upd_w (fun a => div a (w rhs)) ;;
  ret RetVoid.

Definition op_add_s (v : t) (rhs : T) : t :=
  mk (add (x v) rhs) (add (y v) rhs) (add (z v) rhs) (add (w v) rhs).

Definition op_sub_s (v : t) (rhs : T) : t :=
  mk (sub (x v) rhs) (sub (y v) rhs) (sub (z v) rhs) (sub (w v) rhs).

Definition op_mul_s (v : t) (rhs : T) : t :=
  mk (mul (x v) rhs) (mul (y v) rhs) (mul (z v) rhs) (mul (w v) rhs).

Definition op_div_s (v : t) (rhs : T) : result t :=
  match div (x v) rhs with
  | Err e => Err e
  | Ok x' =>
      match div (y v) rhs with
      | Err e => Err e
      | Ok y' =>
          match div (z v) rhs with
          | Err e => Err e
          | Ok z' =>
              match div (w v) rhs with
              | Err e => Err e
              | Ok w' =>
                  Ok (mk x' y' z' w')
              end
          end
      end
  end.

Definition op_add_assign_s (rhs : T) : M t retval :=
  upd_x (fun a => Ok (add a rhs)) ;;
  upd_y (fun a => Ok (add a rhs)) ;;
  upd_z (fun a => Ok (add a rhs)) ;;
  upd_w (fun a => Ok (add a rhs)) ;;
  ret RetVoid.

Definition op_sub_assign_s (rhs : T) : M t retval :=
  upd_x (fun a => Ok (sub a rhs)) ;;
  upd_y (fun a => Ok (sub a rhs)) ;;
  upd_z (fun a => Ok (sub a rhs)) ;;
  upd_w (fun a => Ok (sub a rhs)) ;;
  ret RetVoid.

Definition op_mul_assign_s (rhs : T) : M t retval :=
  upd_x (fun a => Ok (mul a rhs)) ;;
  upd_y (fun a => Ok (mul a rhs)) ;;
  upd_z (fun a => Ok (mul a rhs)) ;;
  upd_w (fun a => Ok (mul a rhs)) ;;
  ret RetVoid.

Definition op_div_assign_s (rhs : T) : M t retval :=
  upd_x (fun a => div a rhs) ;;
  upd_y (fun a => div a rhs) ;;
  upd_z (fun a => div a rhs) ;;
  upd_w (fun a => div a rhs) ;;
  ret RetVoid.

Definition normalize : M t unit :=
  v <- this ;;
  let len := length v in
  if is_zero len then ret tt
  else
    rhs <- lift (of_double len) ;;
    op_div_assign_s rhs ;;
    ret tt.

(** [Vec4<T>{e}] where [e] is the value of a call expression: a copy of
    the vector a returned reference designates; nothing when the call has
    type [void]. *)
Definition ctor_from (r : retval) : M t t :=
  match r with
  | RetSelf => this
  | RetVoid => fail VoidOperand
  end.

(** [inline void operator/=(T rhs)]: the declared return type and
    qualifier. *)
Definition op_div_assign_s_returns : retval := RetVoid.
Definition op_div_assign_s_qualifier : qualifier := NonConst.

(** [normalized() const]: past the guard the body is
    [return Vec4<T>{*this /= len};].  The initialiser is a call of
    [operator/=(T)], of type void, made on the const [*this]. *)
Definition normalized : M t t :=
  checked (call_on_this Const length_qualifier)
    (checked (initialiser op_div_assign_s_returns)
       (checked (call_on_this Const op_div_assign_s_qualifier)
          (v <- this ;;
           let len := length v in
           if is_zero len then ret ctor0
           else
             rhs <- lift (of_double len) ;;
             r <- op_div_assign_s rhs ;;
             ctor_from r))).

End Class.
Arguments t T : clear implicits.
End Vec4.

(** ** Free functions *)

Section Free.
Context {T : Type} {N : Numeric T}.

(** [cross(const Vec3<T> &, const Vec3<T> &)]. *)
Definition cross (v1 v2 : Vec3.t T) : Vec3.t T :=
  Vec3.mk (sub (mul (Vec3.y v1) (Vec3.z v2)) (mul (Vec3.z v1) (Vec3.y v2)))
          (sub (mul (Vec3.z v1) (Vec3.x v2)) (mul (Vec3.x v1) (Vec3.z v2)))
          (sub (mul (Vec3.x v1) (Vec3.y v2)) (mul (Vec3.y v1) (Vec3.x v2))).

(** Modelled from the spec: scalar-times-vector, [s * v].  vector.h declares
    only the members [operator*(T)], with the vector on the left; the
    operator with the scalar on the left, which the tests call, is not among
    the sources.  It broadcasts the scalar over the components, the scalar
    being the left factor. *)
Definition scalar_mul2 (s : T) (v : Vec2.t T) : Vec2.t T :=
  Vec2.mk (mul s (Vec2.x v)) (mul s (Vec2.y v)).

(** Modelled from the spec: [s * v] for a Vec3, as for Vec2. *)
Definition scalar_mul3 (s : T) (v : Vec3.t T) : Vec3.t T :=
  Vec3.mk (mul s (Vec3.x v)) (mul s (Vec3.y v)) (mul s (Vec3.z v)).

(** Modelled from the spec: [s * v] for a Vec4, as for Vec2. *)
Definition scalar_mul4 (s : T) (v : Vec4.t T) : Vec4.t T :=
  Vec4.mk (mul s (Vec4.x v)) (mul s (Vec4.y v)) (mul s (Vec4.z v))
          (mul s (Vec4.w v)).

(** The free [dot] overloads for two Vec2, two Vec3 and two Vec4. *)
Definition dot2 (v1 v2 : Vec2.t T) : float :=
  to_double (add (mul (Vec2.x v1) (Vec2.x v2)) (mul (Vec2.y v1) (Vec2.y v2))).

Definition dot3 (v1 v2 : Vec3.t T) : float :=
  to_double (add (add (mul (Vec3.x v1) (Vec3.x v2))
                      (mul (Vec3.y v1) (Vec3.y v2)))
                 (mul (Vec3.z v1) (Vec3.z v2))).

Definition dot4 (v1 v2 : Vec4.t T) : float :=
  to_double (add (add (add (mul (Vec4.x v1) (Vec4.x v2))
                           (mul (Vec4.y v1) (Vec4.y v2)))
                      (mul (Vec4.z v1) (Vec4.z v2)))
                 (mul (Vec4.w v1) (Vec4.w v2))).

Context {L : Literal T}.

(** The free [reflect] for Vec3: [return v - normal * 2 * dot(v, normal);];
    the Vec3 operators it uses are const. *)
Definition reflect3 (v normal : Vec3.t T) : result (Vec3.t T) :=
  match of_double (dot3 v normal) with
  | Ok k => Ok (Vec3.op_sub v (Vec3.op_mul_s (Vec3.op_mul_s normal (of_int 2)) k))
  | Err e => Err e
  end.
End Free.

(** *** Out-of-place arithmetic on a swizzle member *)

Section MemberArithmetic.
Context {T : Type} {N : Numeric T}.

(** The eight out-of-place operators, by operator and kind of right
    operand. *)
Inductive arith : Type :=
| Plus (rhs : Vec2.t T)
| Minus (rhs : Vec2.t T)
| Times (rhs : Vec2.t T)
| Over (rhs : Vec2.t T)
| PlusS (rhs : T)
| MinusS (rhs : T)
| TimesS (rhs : T)
| OverS (rhs : T).

(** [m op rhs] on a swizzle member [m], resolved against its class. *)
Definition swizzle_arith (m : swizzle2) (op : arith) : M (Vec2.t T) (Vec2.t T) :=
  match m with
  | Primary A B =>
      match op with
      | Plus rhs => Swizzle2.op_add A B rhs
      | Minus rhs => Swizzle2.op_sub A B rhs
      | Times rhs => Swizzle2.op_mul A B rhs
      | Over rhs => Swizzle2.op_div A B rhs
      | PlusS rhs => Swizzle2.op_add_s A B rhs
      | MinusS rhs => Swizzle2.op_sub_s A B rhs
      | TimesS rhs => Swizzle2.op_mul_s A B rhs
      | OverS rhs => Swizzle2.op_div_s A B rhs
      end
  | Repeated A =>
      match op with
      | Plus rhs => Swizzle2Spec.op_add A rhs
      | Minus rhs => Swizzle2Spec.op_sub A rhs
      | Times rhs => Swizzle2Spec.op_mul A rhs
      | Over rhs => Swizzle2Spec.op_div A rhs
      | PlusS rhs => Swizzle2Spec.op_add_s A rhs
      | MinusS rhs => Swizzle2Spec.op_sub_s A rhs
      | TimesS rhs => Swizzle2Spec.op_mul_s A rhs
      | OverS rhs => Swizzle2Spec.op_div_s A rhs
      end
  end.

(** [v op rhs] on a Vec2. *)
Definition Vec2_arith (v : Vec2.t T) (op : arith) : result (Vec2.t T) :=
  match op with
  | Plus rhs => Ok (Vec2.op_add v rhs)
  | Minus rhs => Ok (Vec2.op_sub v rhs)
  | Times rhs => Ok (Vec2.op_mul v rhs)
  | Over rhs => Vec2.op_div v rhs
  | PlusS rhs => Ok (Vec2.op_add_s v rhs)
  | MinusS rhs => Ok (Vec2.op_sub_s v rhs)
  | TimesS rhs => Ok (Vec2.op_mul_s v rhs)
  | OverS rhs => Vec2.op_div_s v rhs
  end.

(** The compound assignment [m op= rhs] that goes with [m op rhs]. *)
Definition in_place (op : arith) : compound T :=
  match op with
  | Plus rhs => AddAssign rhs
  | Minus rhs => SubAssign rhs
  | Times rhs => MulAssign rhs
  | Over rhs => DivAssign rhs
  | PlusS rhs => AddAssignS rhs
  | MinusS rhs => SubAssignS rhs
  | TimesS rhs => MulAssignS rhs
  | OverS rhs => DivAssignS rhs
  end.
End MemberArithmetic.
Arguments arith T : clear implicits.

(** The receiver after an in-place operator whose new value is [r]. *)
Definition stored {V} (r : result V) : result (retval * V) :=
  match r with
  | Ok a => Ok (RetVoid, a)
  | Err e => Err e
  end.

(** Two integers that denote the same [unsigned int]. *)
Inductive cong32 (a b : Z) : Prop :=
| cong32_intro (H : UInt.wrap a = UInt.wrap b).

(** * Properties *)

(** ** The monad and the element types *)

Lemma returns_void_ret {S} : returns_void (ret (S := S) RetVoid).
Proof. intros s. reflexivity. Qed.

Lemma returns_void_bind {S A} (m : M S A) (k : A -> M S retval) :
  (forall a, returns_void (k a)) -> returns_void (bind m k).
Proof.
  intros Hk s. unfold bind. destruct (m s) as [[a s'] | e].
  - apply Hk.
  - exact I.
Qed.

(** Every compound assignment of the vector classes has the shape
    [c1 ;; ... ;; cn ;; ret RetVoid]. *)
Ltac void_body :=
  repeat (apply returns_void_bind; intros); apply returns_void_ret.

Lemma SFmul_comm prec emax (a b : spec_float) :
  SFmul prec emax a b = SFmul prec emax b a.
Proof.
  destruct a as [sa | sa | | sa ma ea], b as [sb | sb | | sb mb eb];
    simpl; try reflexivity;
    try (rewrite (xorb_comm sa sb); reflexivity).
  rewrite (xorb_comm sa sb), (Pos.mul_comm ma mb), (Z.add_comm ea eb).
  reflexivity.
Qed.

(** Multiplication of doubles commutes (Rocq's binary64 has one NaN). *)
Lemma Double_mul_comm (a b : float) : mul a b = mul b a.
Proof.
  simpl. apply Prim2SF_inj. rewrite !mul_spec. apply SFmul_comm.
Qed.

Lemma UInt_mul_comm (a b : Z) : mul a b = mul b a.
Proof. simpl. unfold UInt.wrap. f_equal. lia. Qed.

(** ** Vec2 storage *)

Lemma Vec2_eta {T} (v : Vec2.t T) : Vec2.mk (Vec2.x v) (Vec2.y v) = v.
Proof. destruct v; reflexivity. Qed.

Lemma Vec2_get_set_same {T} (v : Vec2.t T) i a :
  Vec2.get (Vec2.set v i a) i = a.
Proof. destruct i; reflexivity. Qed.

Lemma Vec2_get_set_other {T} (v : Vec2.t T) i j a :
  i <> j -> Vec2.get (Vec2.set v i a) j = Vec2.get v j.
Proof. destruct i, j; intros H; try reflexivity; now elim H. Qed.

Lemma Vec2_set_get {T} (v : Vec2.t T) i : Vec2.set v i (Vec2.get v i) = v.
Proof. destruct v, i; reflexivity. Qed.

(** Writing the same element twice keeps the second value. *)
Lemma Vec2_set_set {T} (v : Vec2.t T) i a b :
  Vec2.set (Vec2.set v i a) i b = Vec2.set v i b.
Proof. destruct i; reflexivity. Qed.

Lemma instantiate_same A : instantiate A A = Repeated A.
Proof. destruct A; reflexivity. Qed.

Lemma instantiate_distinct A B : A <> B -> instantiate A B = Primary A B.
Proof. destruct A, B; intros H; try reflexivity; now elim H. Qed.

(** Assignment through a member with distinct indices stores the first
    component at A, the second at B, and evaluates to the parent. *)
Lemma distinct_assign_yields_parent {T} (A B : idx2) (rhs v : Vec2.t T) :
  A <> B ->
  value_of (swizzle_assign (instantiate A B) rhs) v =
  Some (Vec2.set (Vec2.set v A (Vec2.x rhs)) B (Vec2.y rhs)).
Proof.
  intros H. rewrite (instantiate_distinct H). reflexivity.
Qed.

(** The members with two distinct indices are [xy] and [yx]. *)
Lemma distinct_members A B :
  A <> B -> instantiate A B = xy \/ instantiate A B = yx.
Proof. destruct A, B; intros H; auto; now elim H. Qed.

(** ** Swizzles *)

(** The body of the primary template's [operator=], had it been applied with
    both indices equal, would keep the second component: the order of its
    two stores is left to right. *)
Lemma primary_assign_in_order {T} (A B : idx2) (rhs v : Vec2.t T) :
  Swizzle2.op_assign A B (Other rhs) v =
  Ok (RetSelf, Vec2.set (Vec2.set v A (Vec2.x rhs)) B (Vec2.y rhs)).
Proof. reflexivity. Qed.

(** C1, as amended: a swizzle whose two positions select the same backing
    index belongs to the class specialisation, which declares neither
    [operator=] nor any compound assignment; assigning a Vec2 into it is
    rejected for every index, right-hand side and parent, and nothing is
    written. *)
Theorem repeated_swizzle_has_no_assignment :
  forall (T : Type) (N : Numeric T) (A : idx2) (rhs v : Vec2.t T)
         (op : compound T),
    swizzle_assign (instantiate A A) rhs v = Err NoSuchOperator /\
    swizzle_compound (instantiate A A) op v = Err NoSuchOperator /\
    state_after (swizzle_assign (instantiate A A) rhs) v = None.
Proof.
  intros T N A rhs v op. rewrite instantiate_same.
  repeat split.
Qed.

(** C1 fails as stated: assigning Vec2{5,7} through xx to the parent (1,2)
    yields no state in which element 0 holds 7. *)
Lemma repeated_swizzle_write_refuted :
  ~ (exists r v',
        swizzle_assign xx (Vec2.mk 5 7) (Vec2.mk 1 2) = Ok (r, v') /\
        Vec2.get v' I0 = 7).
Proof.
  intros [r [v' [H _]]]. discriminate H.
Qed.

(** C6: reading the swizzle member of index tuple (A,B), repeated or not,
    yields the vector of the parent's elements A and B in that order and
    leaves the parent as it was. *)
Theorem swizzle_read_selects :
  forall (T : Type) (A B : idx2) (v : Vec2.t T),
    swizzle_read (instantiate A B) v =
    Ok (Vec2.mk (Vec2.get v A) (Vec2.get v B), v).
Proof.
  intros T A B v. destruct A, B; reflexivity.
Qed.

Example read_xx : swizzle_read xx (Vec2.mk 1 2) = Ok (Vec2.mk 1 1, Vec2.mk 1 2).
Proof. reflexivity. Qed.

Example read_xy : swizzle_read xy (Vec2.mk 1 2) = Ok (Vec2.mk 1 2, Vec2.mk 1 2).
Proof. reflexivity. Qed.

Example read_yx : swizzle_read yx (Vec2.mk 1 2) = Ok (Vec2.mk 2 1, Vec2.mk 1 2).
Proof. reflexivity. Qed.

(** C7: reading xy and assigning the vector read back through xy leaves the
    parent as it was; assigning w through xy makes element 0 the first and
    element 1 the second component of w, so the parent becomes w. *)
Theorem swizzle_xy_round_trip :
  forall (T : Type) (v w : Vec2.t T),
    (r <- swizzle_read xy ;; swizzle_assign xy r) v = Ok (RetSelf, v) /\
    (exists v', swizzle_assign xy w v = Ok (RetSelf, v') /\
                Vec2.get v' I0 = Vec2.x w /\
                Vec2.get v' I1 = Vec2.y w /\
                v' = w).
Proof.
  intros T v w. split.
  - destruct v; reflexivity.
  - exists (Vec2.mk (Vec2.x w) (Vec2.y w)). repeat split. apply Vec2_eta.
Qed.

(** A compound assignment of the primary template evaluates to the parent
    as it is stored after the call. *)
Lemma primary_compound_yields_parent {T} {N : Numeric T} (A B : idx2)
      (op : compound T) (v : Vec2.t T) :
  value_of (swizzle_compound (Primary A B) op) v =
  state_after (swizzle_compound (Primary A B) op) v.
Proof.
  unfold value_of, state_after.
  destruct op; cbn;
    unfold Swizzle2.op_add_assign, Swizzle2.op_sub_assign,
      Swizzle2.op_mul_assign, Swizzle2.op_div_assign,
      Swizzle2.op_add_assign_s, Swizzle2.op_sub_assign_s,
      Swizzle2.op_mul_assign_s, Swizzle2.op_div_assign_s,
      rhs_x, rhs_y, update, load, store, bind, lift, ret, this, put; cbn;
    repeat match goal with
           | |- context [div ?p ?q] => destruct (div p q); cbn
           end; reflexivity.
Qed.

(** C10: through a member with two distinct indices, the assignment and
    every compound assignment evaluate to the parent as stored after the
    call; for yx and right-hand side {a,b} that is {b,a}. *)
Theorem swizzle_assign_yields_parent :
  forall (T : Type) (N : Numeric T) (a b : T) (v : Vec2.t T)
         (op : compound T),
    value_of (swizzle_assign yx (Vec2.mk a b)) v = Some (Vec2.mk b a) /\
    state_after (swizzle_assign yx (Vec2.mk a b)) v = Some (Vec2.mk b a) /\
    value_of (swizzle_assign xy (Vec2.mk a b)) v = Some (Vec2.mk a b) /\
    value_of (swizzle_compound yx (AddAssign (Vec2.mk a b))) v =
      Some (Vec2.mk (add (Vec2.x v) b) (add (Vec2.y v) a)) /\
    value_of (swizzle_compound yx op) v = state_after (swizzle_compound yx op) v /\
    value_of (swizzle_compound xy op) v = state_after (swizzle_compound xy op) v.
Proof.
  intros T N a b v op. repeat split.
  - apply (primary_compound_yields_parent I1 I0).
  - apply (primary_compound_yields_parent I0 I1).
Qed.

Example assign_yx :
  swizzle_assign yx (Vec2.mk 5 7) (Vec2.mk 1 2) = Ok (RetSelf, Vec2.mk 7 5).
Proof. reflexivity. Qed.

(** ** Compound assignment of the vector classes *)

(** C2, at Vec2ui v{6,8} and rhs{2,4}: [v += rhs] leaves (3,2), the
    quotients, where the sums are (8,12); [v *= rhs] leaves (12,16), both
    components multiplied by rhs.x, where the products are (12,32). *)
Theorem Vec2_compound_assign_at_6_8 :
  Vec2.op_add_assign (Vec2.mk 2 4) (Vec2.mk 6 8) = Ok (RetVoid, Vec2.mk 3 2) /\
  Vec2.op_add (Vec2.mk 6 8) (Vec2.mk 2 4) = Vec2.mk 8 12 /\
  Vec2.op_mul_assign (Vec2.mk 2 4) (Vec2.mk 6 8) = Ok (RetVoid, Vec2.mk 12 16) /\
  Vec2.op_mul (Vec2.mk 6 8) (Vec2.mk 2 4) = Vec2.mk 12 32.
Proof. repeat split. Qed.

(** What the two bodies compute for every operand. *)
Lemma Vec2_op_mul_assign_spec {T} {N : Numeric T} (rhs v : Vec2.t T) :
  Vec2.op_mul_assign rhs v =
  Ok (RetVoid, Vec2.mk (mul (Vec2.x v) (Vec2.x rhs)) (mul (Vec2.y v) (Vec2.x rhs))).
Proof. reflexivity. Qed.

Lemma Vec2_op_add_assign_is_div_assign {T} {N : Numeric T} (rhs : Vec2.t T) :
  Vec2.op_add_assign rhs = Vec2.op_div_assign rhs.
Proof. reflexivity. Qed.

(** The same operators of Vec3 and Vec4 are element-wise. *)
Lemma Vec3_op_add_assign_spec {T} {N : Numeric T} (rhs v : Vec3.t T) :
  Vec3.op_add_assign rhs v = Ok (RetVoid, Vec3.op_add v rhs).
Proof. reflexivity. Qed.

Lemma Vec3_op_mul_assign_spec {T} {N : Numeric T} (rhs v : Vec3.t T) :
  Vec3.op_mul_assign rhs v = Ok (RetVoid, Vec3.op_mul v rhs).
Proof. reflexivity. Qed.

Lemma Vec4_op_add_assign_spec {T} {N : Numeric T} (rhs v : Vec4.t T) :
  Vec4.op_add_assign rhs v = Ok (RetVoid, Vec4.op_add v rhs).
Proof. reflexivity. Qed.

Lemma Vec4_op_mul_assign_spec {T} {N : Numeric T} (rhs v : Vec4.t T) :
  Vec4.op_mul_assign rhs v = Ok (RetVoid, Vec4.op_mul v rhs).
Proof. reflexivity. Qed.

(** C8, as amended: each of the twenty-four compound assignments of Vec2,
    Vec3 and Vec4 has return type void; whenever the call returns it hands
    back nothing, so its result is not the mutated vector and the call
    cannot be chained. *)
Theorem compound_assign_returns_void :
  forall (T : Type) (N : Numeric T),
    (forall rhs : Vec2.t T,
        returns_void (Vec2.op_add_assign rhs) /\
        returns_void (Vec2.op_sub_assign rhs) /\
        returns_void (Vec2.op_mul_assign rhs) /\
        returns_void (Vec2.op_div_assign rhs)) /\
    (forall rhs : T,
        returns_void (Vec2.op_add_assign_s rhs) /\
        returns_void (Vec2.op_sub_assign_s rhs) /\
        returns_void (Vec2.op_mul_assign_s rhs) /\
        returns_void (Vec2.op_div_assign_s rhs)) /\
    (forall rhs : Vec3.t T,
        returns_void (Vec3.op_add_assign rhs) /\
        returns_void (Vec3.op_sub_assign rhs) /\
        returns_void (Vec3.op_mul_assign rhs) /\
        returns_void (Vec3.op_div_assign rhs)) /\
    (forall rhs : T,
        returns_void (Vec3.op_add_assign_s rhs) /\
        returns_void (Vec3.op_sub_assign_s rhs) /\
        returns_void (Vec3.op_mul_assign_s rhs) /\
        returns_void (Vec3.op_div_assign_s rhs)) /\
    (forall rhs : Vec4.t T,
        returns_void (Vec4.op_add_assign rhs) /\
        returns_void (Vec4.op_sub_assign rhs) /\
        returns_void (Vec4.op_mul_assign rhs) /\
        returns_void (Vec4.op_div_assign rhs)) /\
    (forall rhs : T,
        returns_void (Vec4.op_add_assign_s rhs) /\
        returns_void (Vec4.op_sub_assign_s rhs) /\
        returns_void (Vec4.op_mul_assign_s rhs) /\
        returns_void (Vec4.op_div_assign_s rhs)).
Proof.
  intros T N. repeat split; void_body.
Qed.

(** The operators that do not divide always return. *)
Lemma Vec2_op_sub_assign_spec {T} {N : Numeric T} (rhs v : Vec2.t T) :
  Vec2.op_sub_assign rhs v = Ok (RetVoid, Vec2.op_sub v rhs).
Proof. reflexivity. Qed.

(** C8 fails as stated: Vec2ui v{5,7}, [v -= Vec2ui{1,1}] stores (4,6) and
    the call expression has no value, so it is not the stored vector. *)
Lemma compound_assign_result_refuted :
  Vec2.op_sub_assign (Vec2.mk 1 1) (Vec2.mk 5 7) = Ok (RetVoid, Vec2.mk 4 6) /\
  value_of (Vec2.op_sub_assign (Vec2.mk 1 1)) (Vec2.mk 5 7) <> Some (Vec2.mk 4 6).
Proof.
  split.
  - reflexivity.
  - discriminate.
Qed.

(** ** Normalisation *)

(** [Vec2::normalized] calls the non-const [length()] on a const receiver,
    and [Vec4::normalized] initialises its result from a void call: neither
    yields a vector, whatever the receiver. *)
Lemma Vec2_normalized_ill_formed {T} {N : Numeric T} (v : Vec2.t T) :
  Vec2.normalized v = Err DiscardsQualifier.
Proof. reflexivity. Qed.


(** C3, at the zero vectors of doubles: their length is zero and
    [normalize()] keeps them in all three dimensions, and [normalized()] of
    Vec3 returns the zero vector; but [normalized()] of Vec2 and of Vec4
    return nothing: the first calls the non-const [length()] from a const
    member, the second initialises its result from the void
    [*this /= len]. *)
Theorem normalized_at_zero_vectors :
  is_zero (Vec2.length (Vec2.mk 0 0)%float) = true /\
  Vec2.normalize (Vec2.mk 0 0)%float = Ok (tt, Vec2.mk 0 0)%float /\
  Vec2.normalized (Vec2.mk 0 0)%float = Err DiscardsQualifier /\
  is_zero (Vec3.length (Vec3.mk 0 0 0)%float) = true /\
  Vec3.normalize (Vec3.mk 0 0 0)%float = Ok (tt, Vec3.mk 0 0 0)%float /\
  Vec3.normalized (Vec3.mk 0 0 0)%float
    = Ok (Vec3.mk 0 0 0, Vec3.mk 0 0 0)%float /\
  is_zero (Vec4.length (Vec4.mk 0 0 0 0)%float) = true /\
  Vec4.normalize (Vec4.mk 0 0 0 0)%float = Ok (tt, Vec4.mk 0 0 0 0)%float /\
  Vec4.normalized (Vec4.mk 0 0 0 0)%float = Err VoidOperand.
Proof. repeat split. Qed.

(** X15: when the length computed for a vector is exactly zero,
    [normalize()] returns with the vector as it was, in all three
    dimensions, and [normalized()] of Vec3 returns the zero vector and
    leaves the receiver as it was; no component is computed. *)
Theorem zero_length_is_a_no_op :
  forall (T : Type) (N : Numeric T),
    (forall v : Vec2.t T,
        is_zero (Vec2.length v) = true -> Vec2.normalize v = Ok (tt, v)) /\
    (forall v : Vec3.t T,
        is_zero (Vec3.length v) = true ->
        Vec3.normalize v = Ok (tt, v) /\
        Vec3.normalized v = Ok (Vec3.mk zero zero zero, v)) /\
    (forall v : Vec4.t T,
        is_zero (Vec4.length v) = true -> Vec4.normalize v = Ok (tt, v)).
Proof.
  intros T N. split; [| split]; intros v H;
    unfold Vec2.normalize, Vec3.normalize, Vec3.normalized, Vec4.normalize,
      checked, call_on_this, Vec3.length_qualifier, bind, this;
    rewrite H; try split; reflexivity.
Qed.

(** The zero vectors of doubles. *)
Lemma zero_length_is_a_no_op_witness :
  (is_zero (Vec2.length (Vec2.mk 0 0)%float) = true /\
   Vec2.normalize (Vec2.mk 0 0)%float = Ok (tt, Vec2.mk 0 0)%float) /\
  (is_zero (Vec3.length (Vec3.mk 0 0 0)%float) = true /\
   Vec3.normalize (Vec3.mk 0 0 0)%float = Ok (tt, Vec3.mk 0 0 0)%float /\
   Vec3.normalized (Vec3.mk 0 0 0)%float
     = Ok (Vec3.mk 0 0 0, Vec3.mk 0 0 0)%float) /\
  (is_zero (Vec4.length (Vec4.mk 0 0 0 0)%float) = true /\
   Vec4.normalize (Vec4.mk 0 0 0 0)%float = Ok (tt, Vec4.mk 0 0 0 0)%float).
Proof.
  pose proof (@zero_length_is_a_no_op float Double.numeric) as [H2 [H3 H4]].
  split; [| split].
  - split; [reflexivity |].
    exact (H2 (Vec2.mk 0 0)%float eq_refl).
  - split; [reflexivity |].
    exact (H3 (Vec3.mk 0 0 0)%float eq_refl).
  - split; [reflexivity |].
    exact (H4 (Vec4.mk 0 0 0 0)%float eq_refl).
Defined.

(** The guard tests the computed length: for Vec2ui{65536,0} the sum of
    squares wraps to 0, so [normalize()] keeps the vector, and for the double
    vector (2^-600, 0) the square underflows to 0. *)
Example zero_length_by_wrap_around :
  is_zero (Vec2.length (Vec2.mk 65536 0)) = true /\
  Vec2.normalize (Vec2.mk 65536 0) = Ok (tt, Vec2.mk 65536 0).
Proof. split; reflexivity. Qed.

Example zero_length_by_underflow :
  is_zero (Vec2.length (Vec2.mk 0x1p-600 0)%float) = true /\
  Vec2.normalize (Vec2.mk 0x1p-600 0)%float = Ok (tt, Vec2.mk 0x1p-600 0)%float.
Proof. split; reflexivity. Qed.

(** [normalized()] of Vec2 and Vec3 never writes the receiver. *)
Lemma Vec2_normalized_pure {T} {N : Numeric T} (v r v' : Vec2.t T) :
  Vec2.normalized v = Ok (r, v') -> v' = v.
Proof.
  rewrite Vec2_normalized_ill_formed. discriminate.
Qed.

Lemma Vec3_normalized_pure {T} {N : Numeric T} (v r v' : Vec3.t T) :
  Vec3.normalized v = Ok (r, v') -> v' = v.
Proof.
  unfold Vec3.normalized, checked, call_on_this, Vec3.length_qualifier,
    bind, this, lift, ret.
  destruct (is_zero (Vec3.length v)).
  - intros H. now inversion H.
  - destruct (of_double _); [| discriminate].
    destruct (of_double _); [| discriminate].
    destruct (of_double _); [| discriminate].
    intros H. now inversion H.
Qed.

(** On doubles, [normalized()] of Vec3 is the component-wise quotient by the
    length. *)
Lemma Vec3d_normalized_nonzero (v : Vec3.t float) :
  is_zero (Vec3.length v) = false ->
  Vec3.normalized v =
  Ok (Vec3.mk (Vec3.x v / Vec3.length v)%float
              (Vec3.y v / Vec3.length v)%float
              (Vec3.z v / Vec3.length v)%float, v).
Proof.
  intros H.
  unfold Vec3.normalized, checked, call_on_this, Vec3.length_qualifier,
    bind, this.
  rewrite H. reflexivity.
Qed.

(** C4, at Vec4d{2,0,0,0}, of length 2: [normalized()] produces no vector,
    its result being initialised from [*this /= len], the in-place division
    that returns void (applied to (2,0,0,0) with 2 that operator stores
    (1,0,0,0)); Vec3d{2,0,0} returns the quotients and keeps the
    receiver. *)
Theorem Vec4_normalized_at_2_0_0_0 :
  Vec4.length (Vec4.mk 2 0 0 0)%float = 2%float /\
  Vec4.normalized (Vec4.mk 2 0 0 0)%float = Err VoidOperand /\
  Vec4.op_div_assign_s 2%float (Vec4.mk 2 0 0 0)%float
    = Ok (RetVoid, Vec4.mk 1 0 0 0)%float /\
  Vec3.normalized (Vec3.mk 2 0 0)%float
    = Ok (Vec3.mk 1 0 0, Vec3.mk 2 0 0)%float.
Proof. repeat split. Qed.

(** ** Scalar multiplication and the cross products *)

(** C5: where the element type's multiplication commutes, [v * s] and
    [s * v] are the same vector, in every dimension. *)
Theorem scalar_mul_commutes :
  forall (T : Type) (N : Numeric T),
    (forall a b : T, mul a b = mul b a) ->
    forall s : T,
      (forall v : Vec2.t T, Vec2.op_mul_s v s = scalar_mul2 s v) /\
      (forall v : Vec3.t T, Vec3.op_mul_s v s = scalar_mul3 s v) /\
      (forall v : Vec4.t T, Vec4.op_mul_s v s = scalar_mul4 s v).
Proof.
  intros T N Hcomm s0.
  unfold Vec2.op_mul_s, Vec3.op_mul_s, Vec4.op_mul_s,
    scalar_mul2, scalar_mul3, scalar_mul4.
  repeat split; intros v; repeat rewrite (Hcomm s0); reflexivity.
Qed.

(** Vec3d{2,2,2} * 2.0 and 2.0 * Vec3d{2,2,2} are both Vec3d{4,4,4}. *)
Lemma scalar_mul_commutes_witness :
  (forall a b : float, mul a b = mul b a) /\
  (Vec3.op_mul_s (Vec3.mk 2 2 2) 2 = scalar_mul3 2 (Vec3.mk 2 2 2))%float /\
  (scalar_mul3 2 (Vec3.mk 2 2 2) = Vec3.mk 4 4 4)%float.
Proof.
  split; [exact Double_mul_comm | split].
  - apply (@scalar_mul_commutes float Double.numeric Double_mul_comm 2%float).
  - reflexivity.
Defined.

Example scalar_mul_commutes_uint :
  Vec3.op_mul_s (Vec3.mk 2 2 2) 2 = scalar_mul3 2 (Vec3.mk 2 2 2) /\
  scalar_mul3 2 (Vec3.mk 2 2 2) = Vec3.mk 4 4 4.
Proof. split; reflexivity. Qed.

(** The cross product of two Vec3, member and free function, is the same
    total function. *)
Lemma cross_member_free {T} {N : Numeric T} (v1 v2 : Vec3.t T) :
  cross v1 v2 = Vec3.cross v1 v2.
Proof. reflexivity. Qed.

Example cross_x_y :
  (cross (Vec3.mk 1 0 0) (Vec3.mk 0 1 0) = Vec3.mk 0 0 1)%float.
Proof. reflexivity. Qed.

(** * Further properties of the modelled code *)

(** ** Round trips through a swizzle member *)

(** X1: through a member with two distinct indices and for a right operand
    that is an object other than the parent, reading after an assignment
    returns the vector assigned, and assigning back the vector just read
    leaves the parent as it was.  When the right operand is the parent
    itself, [v.xy = v] changes nothing, but [v.yx = v] copies element 0 into
    both elements: [rhs.y] is read after element 1 has been overwritten. *)
Theorem swizzle_round_trip :
  forall (T : Type) (A B : idx2) (rhs v : Vec2.t T),
    A <> B ->
    (swizzle_assign (instantiate A B) rhs ;; swizzle_read (instantiate A B)) v =
      Ok (rhs, Vec2.set (Vec2.set v A (Vec2.x rhs)) B (Vec2.y rhs)) /\
    (r <- swizzle_read (instantiate A B) ;; swizzle_assign (instantiate A B) r) v =
      Ok (RetSelf, v) /\
    swizzle_assign_ref xy Parent v = Ok (RetSelf, v) /\
    swizzle_assign_ref yx Parent v = Ok (RetSelf, Vec2.mk (Vec2.x v) (Vec2.x v)).
Proof.
  intros T A B rhs v H. rewrite (instantiate_distinct H).
  destruct rhs as [a b], v as [p q].
  destruct A, B; try (now elim H); repeat split.
Qed.

(** The member yx on the parent (1,2): assigning the temporary {5,7} stores
    (7,5) and reads back {5,7}; assigning the parent itself stores (1,1). *)
Lemma swizzle_round_trip_witness :
  I1 <> I0 /\
  (swizzle_assign yx (Vec2.mk 5 7) ;; swizzle_read yx) (Vec2.mk 1 2) =
    Ok (Vec2.mk 5 7, Vec2.mk 7 5) /\
  (r <- swizzle_read yx ;; swizzle_assign yx r) (Vec2.mk 1 2) =
    Ok (RetSelf, Vec2.mk 1 2) /\
  swizzle_assign_ref xy Parent (Vec2.mk 1 2) = Ok (RetSelf, Vec2.mk 1 2) /\
  swizzle_assign_ref yx Parent (Vec2.mk 1 2) = Ok (RetSelf, Vec2.mk 1 1).
Proof.
  assert (H : I1 <> I0) by discriminate.
  split; [exact H |].
  exact (@swizzle_round_trip Z I1 I0 (Vec2.mk 5 7) (Vec2.mk 1 2) H).
Defined.

Ltac run_member :=
  unfold Swizzle2.op_add, Swizzle2.op_sub, Swizzle2.op_mul, Swizzle2.op_div,
    Swizzle2.op_add_s, Swizzle2.op_sub_s, Swizzle2.op_mul_s, Swizzle2.op_div_s,
    Swizzle2Spec.op_add, Swizzle2Spec.op_sub, Swizzle2Spec.op_mul,
    Swizzle2Spec.op_div, Swizzle2Spec.op_add_s, Swizzle2Spec.op_sub_s,
    Swizzle2Spec.op_mul_s, Swizzle2Spec.op_div_s,
    Swizzle2.op_add_assign, Swizzle2.op_sub_assign,
    Swizzle2.op_mul_assign, Swizzle2.op_div_assign,
    Swizzle2.op_add_assign_s, Swizzle2.op_sub_assign_s,
    Swizzle2.op_mul_assign_s, Swizzle2.op_div_assign_s,
    Swizzle2.op_assign, Swizzle2.to_Vec2, Swizzle2Spec.to_Vec2,
    Vec2.op_div, Vec2.op_div_s,
    rhs_x, rhs_y, update, load, store, bind, lift, ret, this, put; cbn.

Ltac split_div :=
  repeat match goal with
         | |- context [div ?p ?q] => destruct (div p q); cbn
         end.

(** X2: an out-of-place operator applied to any swizzle member, of repeated
    index or not, gives what the same Vec2 operator gives on the vector read
    through the member, fails where that fails, and never writes the
    parent. *)
Theorem swizzle_arith_reads_then_operates :
  forall (T : Type) (N : Numeric T) (A B : idx2) (op : arith T) (v : Vec2.t T),
    swizzle_arith (instantiate A B) op v =
    match Vec2_arith (Vec2.mk (Vec2.get v A) (Vec2.get v B)) op with
    | Ok q => Ok (q, v)
    | Err e => Err e
    end.
Proof.
  intros T N A B op v.
  destruct A, B, op; cbn; run_member; split_div; reflexivity.
Qed.

(** X3: on a member with two distinct indices and for a right operand that
    is an object other than the parent, [m op= rhs] is the same as reading
    m, applying the Vec2 operator and assigning the result back through m,
    for all eight operators, errors included.  When the right operand is the
    parent itself, [v.xy += v] still doubles both elements, but [v.yx += v]
    adds to element 0 the element 1 it has just updated. *)
Theorem swizzle_compound_is_read_operate_assign :
  forall (T : Type) (N : Numeric T) (A B : idx2) (op : arith T) (v : Vec2.t T),
    A <> B ->
    swizzle_compound (instantiate A B) (in_place op) v =
      (r <- swizzle_read (instantiate A B) ;;
       q <- lift (Vec2_arith r op) ;;
       swizzle_assign (instantiate A B) q) v /\
    swizzle_compound_parent xy AddAssignParent v =
      Ok (RetSelf, Vec2.mk (add (Vec2.x v) (Vec2.x v)) (add (Vec2.y v) (Vec2.y v))) /\
    swizzle_compound_parent yx AddAssignParent v =
      Ok (RetSelf, Vec2.mk (add (Vec2.x v) (add (Vec2.y v) (Vec2.x v)))
                           (add (Vec2.y v) (Vec2.x v))).
Proof.
  intros T N A B op v H. rewrite (instantiate_distinct H).
  destruct v as [p q]. split; [| split; reflexivity].
  destruct A, B; try (now elim H); destruct op; cbn; run_member; split_div;
    reflexivity.
Qed.

(** [v.yx += rhs] on the parent (1,2): with the temporary {10,20} it stores
    (21,12), as read-operate-assign does; with the parent itself it stores
    (4,3). *)
Lemma swizzle_compound_is_read_operate_assign_witness :
  I1 <> I0 /\
  swizzle_compound yx (in_place (Plus (Vec2.mk 10 20))) (Vec2.mk 1 2) =
    (r <- swizzle_read yx ;;
     q <- lift (Vec2_arith r (Plus (Vec2.mk 10 20))) ;;
     swizzle_assign yx q) (Vec2.mk 1 2) /\
  swizzle_compound_parent xy AddAssignParent (Vec2.mk 1 2) =
    Ok (RetSelf, Vec2.mk 2 4) /\
  swizzle_compound_parent yx AddAssignParent (Vec2.mk 1 2) =
    Ok (RetSelf, Vec2.mk 4 3).
Proof.
  assert (H : I1 <> I0) by discriminate.
  split; [exact H |].
  exact (@swizzle_compound_is_read_operate_assign Z UInt.numeric I1 I0
           (Plus (Vec2.mk 10 20)) (Vec2.mk 1 2) H).
Defined.

Example compound_yx_add :
  swizzle_compound yx (AddAssign (Vec2.mk 10 20)) (Vec2.mk 1 2) =
  Ok (RetSelf, Vec2.mk 21 12).
Proof. reflexivity. Qed.

(** ** In-place and out-of-place operators of the vector classes *)

Ltac run_vec :=
  unfold stored,
    Vec2.op_sub_assign, Vec2.op_div_assign, Vec2.op_add_assign_s,
    Vec2.op_sub_assign_s, Vec2.op_mul_assign_s, Vec2.op_div_assign_s,
    Vec2.op_div, Vec2.op_div_s, Vec2.upd_x, Vec2.upd_y,
    Vec3.op_add_assign, Vec3.op_sub_assign, Vec3.op_mul_assign,
    Vec3.op_div_assign, Vec3.op_add_assign_s, Vec3.op_sub_assign_s,
    Vec3.op_mul_assign_s, Vec3.op_div_assign_s,
    Vec3.op_div, Vec3.op_div_s, Vec3.upd_x, Vec3.upd_y, Vec3.upd_z,
    Vec4.op_add_assign, Vec4.op_sub_assign, Vec4.op_mul_assign,
    Vec4.op_div_assign, Vec4.op_add_assign_s, Vec4.op_sub_assign_s,
    Vec4.op_mul_assign_s, Vec4.op_div_assign_s,
    Vec4.op_div, Vec4.op_div_s, Vec4.upd_x, Vec4.upd_y, Vec4.upd_z, Vec4.upd_w,
    bind, lift, ret, this, put; cbn.

(** X4: every compound assignment of Vec3 and Vec4, and [-=], [/=] and the
    four scalar forms of Vec2, stores exactly what the matching out-of-place
    operator returns, and fails exactly where it fails. *)
Theorem compound_assign_agrees_with_operator :
  forall (T : Type) (N : Numeric T),
    (forall rhs v : Vec3.t T,
        Vec3.op_add_assign rhs v = stored (Ok (Vec3.op_add v rhs)) /\
        Vec3.op_sub_assign rhs v = stored (Ok (Vec3.op_sub v rhs)) /\
        Vec3.op_mul_assign rhs v = stored (Ok (Vec3.op_mul v rhs)) /\
        Vec3.op_div_assign rhs v = stored (Vec3.op_div v rhs)) /\
    (forall (rhs : T) (v : Vec3.t T),
        Vec3.op_add_assign_s rhs v = stored (Ok (Vec3.op_add_s v rhs)) /\
        Vec3.op_sub_assign_s rhs v = stored (Ok (Vec3.op_sub_s v rhs)) /\
        Vec3.op_mul_assign_s rhs v = stored (Ok (Vec3.op_mul_s v rhs)) /\
        Vec3.op_div_assign_s rhs v = stored (Vec3.op_div_s v rhs)) /\
    (forall rhs v : Vec4.t T,
        Vec4.op_add_assign rhs v = stored (Ok (Vec4.op_add v rhs)) /\
        Vec4.op_sub_assign rhs v = stored (Ok (Vec4.op_sub v rhs)) /\
        Vec4.op_mul_assign rhs v = stored (Ok (Vec4.op_mul v rhs)) /\
        Vec4.op_div_assign rhs v = stored (Vec4.op_div v rhs)) /\
    (forall (rhs : T) (v : Vec4.t T),
        Vec4.op_add_assign_s rhs v = stored (Ok (Vec4.op_add_s v rhs)) /\
        Vec4.op_sub_assign_s rhs v = stored (Ok (Vec4.op_sub_s v rhs)) /\
        Vec4.op_mul_assign_s rhs v = stored (Ok (Vec4.op_mul_s v rhs)) /\
        Vec4.op_div_assign_s rhs v = stored (Vec4.op_div_s v rhs)) /\
    (forall rhs v : Vec2.t T,
        Vec2.op_sub_assign rhs v = stored (Ok (Vec2.op_sub v rhs)) /\
        Vec2.op_div_assign rhs v = stored (Vec2.op_div v rhs)) /\
    (forall (rhs : T) (v : Vec2.t T),
        Vec2.op_add_assign_s rhs v = stored (Ok (Vec2.op_add_s v rhs)) /\
        Vec2.op_sub_assign_s rhs v = stored (Ok (Vec2.op_sub_s v rhs)) /\
        Vec2.op_mul_assign_s rhs v = stored (Ok (Vec2.op_mul_s v rhs)) /\
        Vec2.op_div_assign_s rhs v = stored (Vec2.op_div_s v rhs)).
Proof.
  intros T N.
  repeat match goal with
         | |- _ /\ _ => split
         | |- forall _, _ => intro
         end;
    try reflexivity; run_vec; split_div; reflexivity.
Qed.

(** ** Normalisation, continued *)

(** X5: on double vectors of non-zero length, [normalize()] replaces every
    component by its quotient by the length, in all three dimensions, and
    [normalized()] of Vec3 returns that same vector and keeps the
    receiver. *)
Theorem normalize_divides_by_length :
  (forall v : Vec2.t float,
      is_zero (Vec2.length v) = false ->
      Vec2.normalize v =
      Ok (tt, Vec2.mk (Vec2.x v / Vec2.length v)%float
                      (Vec2.y v / Vec2.length v)%float)) /\
  (forall v : Vec3.t float,
      is_zero (Vec3.length v) = false ->
      let q := Vec3.mk (Vec3.x v / Vec3.length v)%float
                       (Vec3.y v / Vec3.length v)%float
                       (Vec3.z v / Vec3.length v)%float in
      Vec3.normalize v = Ok (tt, q) /\ Vec3.normalized v = Ok (q, v)) /\
  (forall v : Vec4.t float,
      is_zero (Vec4.length v) = false ->
      Vec4.normalize v =
      Ok (tt, Vec4.mk (Vec4.x v / Vec4.length v)%float
                      (Vec4.y v / Vec4.length v)%float
                      (Vec4.z v / Vec4.length v)%float
                      (Vec4.w v / Vec4.length v)%float)).
Proof.
  split; [| split]; intros v H; cbv zeta;
    unfold Vec2.normalize, Vec3.normalize, Vec3.normalized, Vec4.normalize,
      checked, call_on_this, Vec3.length_qualifier, bind, this;
    rewrite H; try split; reflexivity.
Qed.

(** The vectors (3,4), (2,3,6) and (1,1,1,1), of lengths 5, 7 and 2. *)
Lemma normalize_divides_by_length_witness :
  (is_zero (Vec2.length (Vec2.mk 3 4)%float) = false /\
   Vec2.normalize (Vec2.mk 3 4)%float = Ok (tt, Vec2.mk (3 / 5) (4 / 5))%float) /\
  (is_zero (Vec3.length (Vec3.mk 2 3 6)%float) = false /\
   Vec3.normalize (Vec3.mk 2 3 6)%float
     = Ok (tt, Vec3.mk (2 / 7) (3 / 7) (6 / 7))%float /\
   Vec3.normalized (Vec3.mk 2 3 6)%float
     = Ok (Vec3.mk (2 / 7) (3 / 7) (6 / 7), Vec3.mk 2 3 6)%float) /\
  (is_zero (Vec4.length (Vec4.mk 1 1 1 1)%float) = false /\
   Vec4.normalize (Vec4.mk 1 1 1 1)%float
     = Ok (tt, Vec4.mk (1 / 2) (1 / 2) (1 / 2) (1 / 2))%float).
Proof.
  pose proof normalize_divides_by_length as [H2 [H3 H4]].
  split; [| split].
  - split; [reflexivity |]. exact (H2 (Vec2.mk 3 4)%float eq_refl).
  - split; [reflexivity |]. exact (H3 (Vec3.mk 2 3 6)%float eq_refl).
  - split; [reflexivity |]. exact (H4 (Vec4.mk 1 1 1 1)%float eq_refl).
Defined.

(** On an integer element type the two differ: [normalize()] divides in
    [T] by the truncated length, [normalized()] truncates the quotient. *)
Example normalize_normalized_differ_unsigned :
  state_after Vec3.normalize (Vec3.mk 2 2 0) = Some (Vec3.mk 1 1 0) /\
  Vec3.normalized (Vec3.mk 2 2 0) = Ok (Vec3.mk 0 0 0, Vec3.mk 2 2 0).
Proof. split; reflexivity. Qed.


(** ** Dot product *)

(** X7: where the element type's multiplication commutes, the dot product
    is symmetric, as member and as free function, in every dimension. *)
Theorem dot_symmetric :
  forall (T : Type) (N : Numeric T),
    (forall a b : T, mul a b = mul b a) ->
    (forall v w : Vec2.t T,
        Vec2.dot v w = Vec2.dot w v /\ dot2 v w = dot2 w v) /\
    (forall v w : Vec3.t T,
        Vec3.dot v w = Vec3.dot w v /\ dot3 v w = dot3 w v) /\
    (forall v w : Vec4.t T, dot4 v w = dot4 w v).
Proof.
  intros T N Hcomm.
  unfold Vec2.dot, dot2, Vec3.dot, dot3, dot4.
  split; [| split]; intros v w; try split;
    repeat (f_equal; try apply Hcomm).
Qed.

(** Doubles: (1,2,3) . (4,5,6) = 32 either way. *)
Lemma dot_symmetric_witness :
  (forall a b : float, mul a b = mul b a) /\
  (Vec3.dot (Vec3.mk 1 2 3) (Vec3.mk 4 5 6)
   = Vec3.dot (Vec3.mk 4 5 6) (Vec3.mk 1 2 3))%float /\
  (Vec3.dot (Vec3.mk 4 5 6) (Vec3.mk 1 2 3) = 32)%float.
Proof.
  split; [exact Double_mul_comm | split].
  - apply (@dot_symmetric float Double.numeric Double_mul_comm).
  - reflexivity.
Defined.

(** ** Unsigned element type: arithmetic modulo 2^32 *)

Lemma cong32_wrap a b : cong32 a b -> UInt.wrap a = UInt.wrap b.
Proof. now intros []. Qed.

#[local] Instance cong32_equiv : Equivalence cong32.
Proof.
  split.
  - intros a. now constructor.
  - intros a b []. now constructor.
  - intros a b c [] []. constructor. congruence.
Qed.

#[local] Instance cong32_add : Proper (cong32 ==> cong32 ==> cong32) Z.add.
Proof.
  intros a a' [Ha] b b' [Hb]. constructor. unfold UInt.wrap in *.
  rewrite (Zplus_mod a), (Zplus_mod a'). now rewrite Ha, Hb.
Qed.

#[local] Instance cong32_sub : Proper (cong32 ==> cong32 ==> cong32) Z.sub.
Proof.
  intros a a' [Ha] b b' [Hb]. constructor. unfold UInt.wrap in *.
  rewrite (Zminus_mod a), (Zminus_mod a'). now rewrite Ha, Hb.
Qed.

#[local] Instance cong32_mul : Proper (cong32 ==> cong32 ==> cong32) Z.mul.
Proof.
  intros a a' [Ha] b b' [Hb]. constructor. unfold UInt.wrap in *.
  rewrite (Zmult_mod a), (Zmult_mod a'). now rewrite Ha, Hb.
Qed.

#[local] Instance cong32_opp : Proper (cong32 ==> cong32) Z.opp.
Proof.
  intros a a' Ha. rewrite <- !Z.sub_0_l. now rewrite Ha.
Qed.

Lemma wrap_cong32 a : cong32 (UInt.wrap a) a.
Proof. constructor. unfold UInt.wrap. apply Zmod_mod. Qed.

(** An equation between unsigned values: strip every inner reduction, then
    compare the integer polynomials. *)
Ltac wrap_ring :=
  cbn [add sub mul neg zero UInt.numeric];
  try change 0 with (UInt.wrap 0) at 1;
  apply cong32_wrap; rewrite ?wrap_cong32;
  match goal with |- cong32 ?l ?r => replace l with r by ring end;
  reflexivity.

(** X8: on unsigned vectors the cross product, member and free function,
    is anti-commutative, and the cross product of a vector with itself is
    the zero vector. *)
Theorem cross_anticommutative_unsigned :
  forall a b : Vec3.t Z,
    Vec3.cross a b = Vec3.op_neg (Vec3.cross b a) /\
    cross a b = Vec3.op_neg (cross b a) /\
    Vec3.cross a a = Vec3.ctor0.
Proof.
  intros [ax ay az] [bx by_ bz].
  unfold Vec3.cross, cross, Vec3.op_neg, Vec3.ctor0; cbn [Vec3.x Vec3.y Vec3.z].
  repeat split; f_equal; wrap_ring.
Qed.

(** X9: on unsigned vectors the cross product is orthogonal to both of its
    arguments: the dot products are exactly 0. *)
Theorem cross_orthogonal_unsigned :
  forall a b : Vec3.t Z,
    Vec3.dot (Vec3.cross a b) a = 0%float /\
    Vec3.dot (Vec3.cross a b) b = 0%float.
Proof.
  intros [ax ay az] [bx by_ bz].
  unfold Vec3.dot, Vec3.cross; cbn [Vec3.x Vec3.y Vec3.z].
  split.
  - replace (add (add (mul (sub (mul ay bz) (mul az by_)) ax)
                      (mul (sub (mul az bx) (mul ax bz)) ay))
                 (mul (sub (mul ax by_) (mul ay bx)) az))
      with (UInt.wrap 0); [reflexivity |].
    wrap_ring.
  - replace (add (add (mul (sub (mul ay bz) (mul az by_)) bx)
                      (mul (sub (mul az bx) (mul ax bz)) by_))
                 (mul (sub (mul ax by_) (mul ay bx)) bz))
      with (UInt.wrap 0); [reflexivity |].
    wrap_ring.
Qed.

(** X10: on unsigned vectors of every dimension, [v + (-v)] and [v - v]
    are the zero vector. *)
Theorem unsigned_additive_inverse :
  (forall v : Vec2.t Z,
      Vec2.op_add v (Vec2.op_neg v) = Vec2.ctor0 /\
      Vec2.op_sub v v = Vec2.ctor0) /\
  (forall v : Vec3.t Z,
      Vec3.op_add v (Vec3.op_neg v) = Vec3.ctor0 /\
      Vec3.op_sub v v = Vec3.ctor0) /\
  (forall v : Vec4.t Z,
      Vec4.op_add v (Vec4.op_neg v) = Vec4.ctor0 /\
      Vec4.op_sub v v = Vec4.ctor0).
Proof.
  split; [| split]; intros v; destruct v;
    unfold Vec2.op_add, Vec2.op_neg, Vec2.op_sub, Vec2.ctor0,
      Vec3.op_add, Vec3.op_neg, Vec3.op_sub, Vec3.ctor0,
      Vec4.op_add, Vec4.op_neg, Vec4.op_sub, Vec4.ctor0;
    cbn [Vec2.x Vec2.y Vec3.x Vec3.y Vec3.z Vec4.x Vec4.y Vec4.z Vec4.w];
    split; f_equal; wrap_ring.
Qed.

(** On doubles the same identities have exceptions. *)
Example double_additive_inverse_fails :
  (Vec2.op_add (Vec2.mk infinity 0) (Vec2.op_neg (Vec2.mk infinity 0))
   = Vec2.mk nan 0)%float.
Proof. reflexivity. Qed.

Example double_cross_signed_zero :
  (Vec3.cross (Vec3.mk 1 0 0) (Vec3.mk 1 0 0) = Vec3.mk 0 0 0 /\
   Vec3.op_neg (Vec3.cross (Vec3.mk 1 0 0) (Vec3.mk 1 0 0))
   = Vec3.mk (-0) (-0) (-0))%float.
Proof. split; reflexivity. Qed.

Ltac zero_cases :=
  repeat match goal with
         | |- context [?a =? 0] => destruct (Z.eqb_spec a 0)
         end.

(** X11: on unsigned vectors, element-wise division fails with a division
    by zero exactly when some component of the divisor is zero, and division
    by a scalar exactly when the scalar is zero. *)
Theorem unsigned_division_by_zero :
  (forall v rhs : Vec2.t Z,
      Vec2.op_div v rhs = Err DivideByZero <->
      Vec2.x rhs = 0 \/ Vec2.y rhs = 0) /\
  (forall v rhs : Vec3.t Z,
      Vec3.op_div v rhs = Err DivideByZero <->
      Vec3.x rhs = 0 \/ Vec3.y rhs = 0 \/ Vec3.z rhs = 0) /\
  (forall v rhs : Vec4.t Z,
      Vec4.op_div v rhs = Err DivideByZero <->
      Vec4.x rhs = 0 \/ Vec4.y rhs = 0 \/ Vec4.z rhs = 0 \/ Vec4.w rhs = 0) /\
  (forall (v : Vec2.t Z) (s : Z), Vec2.op_div_s v s = Err DivideByZero <-> s = 0) /\
  (forall (v : Vec3.t Z) (s : Z), Vec3.op_div_s v s = Err DivideByZero <-> s = 0) /\
  (forall (v : Vec4.t Z) (s : Z), Vec4.op_div_s v s = Err DivideByZero <-> s = 0).
Proof.
  repeat match goal with |- _ /\ _ => split end; intros v rhs;
    unfold Vec2.op_div, Vec3.op_div, Vec4.op_div,
      Vec2.op_div_s, Vec3.op_div_s, Vec4.op_div_s;
    cbn [div UInt.numeric]; zero_cases;
    (split; [intros H; try discriminate H; tauto
            | intros H; try reflexivity; exfalso; tauto]).
Qed.

(** ** Reflection *)

(** X12: the in-place [reflect], [reflected] and the free [reflect] of
    Vec3 compute the same vector and fail together. *)
Theorem reflect_forms_agree :
  forall (T : Type) (N : Numeric T) (L : Literal T) (v normal : Vec3.t T),
    Vec3.reflect normal v =
      match Vec3.reflected v normal with
      | Ok r => Ok (tt, r)
      | Err e => Err e
      end /\
    reflect3 v normal = Vec3.reflected v normal.
Proof.
  intros T N L v normal. split; [| reflexivity].
  unfold Vec3.reflect, Vec3.reflected, bind, this, lift.
  destruct (of_double (Vec3.dot v normal)); reflexivity.
Qed.

Example reflect_about_y :
  (Vec3.reflected (Vec3.mk 1 (-1) 0) (Vec3.mk 0 1 0) = Ok (Vec3.mk 1 1 0))%float.
Proof. reflexivity. Qed.

(** ** Double vectors *)

Lemma SFadd_comm prec emax (a b : spec_float) :
  SFadd prec emax a b = SFadd prec emax b a.
Proof.
  destruct a as [sa | sa | | sa ma ea], b as [sb | sb | | sb mb eb];
    simpl; try reflexivity.
  - destruct sa, sb; reflexivity.
  - destruct sa, sb; reflexivity.
  - rewrite (Z.min_comm eb ea), Z.add_comm. reflexivity.
Qed.

Lemma SFopp_involutive (a : spec_float) : SFopp (SFopp a) = a.
Proof. destruct a; simpl; try rewrite negb_involutive; reflexivity. Qed.

Lemma Double_add_comm (a b : float) : add a b = add b a.
Proof.
  simpl. apply Prim2SF_inj. rewrite !add_spec. apply SFadd_comm.
Qed.

Lemma Double_neg_involutive (a : float) : neg (neg a) = a.
Proof.
  simpl. apply Prim2SF_inj. rewrite !opp_spec. apply SFopp_involutive.
Qed.

(** X13: on double vectors of every dimension, addition and the
    element-wise product commute and negating twice gives the vector back:
    corresponding components are the same double, where a component that is
    NaN on one side is NaN on the other (doubles are modelled with a single
    NaN, so the sign and payload of a NaN are not compared). *)
Theorem double_vector_ops_commute :
  (forall v w : Vec2.t float,
      Vec2.op_add v w = Vec2.op_add w v /\
      Vec2.op_mul v w = Vec2.op_mul w v /\
      Vec2.op_neg (Vec2.op_neg v) = v) /\
  (forall v w : Vec3.t float,
      Vec3.op_add v w = Vec3.op_add w v /\
      Vec3.op_mul v w = Vec3.op_mul w v /\
      Vec3.op_neg (Vec3.op_neg v) = v) /\
  (forall v w : Vec4.t float,
      Vec4.op_add v w = Vec4.op_add w v /\
      Vec4.op_mul v w = Vec4.op_mul w v /\
      Vec4.op_neg (Vec4.op_neg v) = v).
Proof.
  split; [| split]; intros v w; destruct v, w;
    unfold Vec2.op_add, Vec2.op_mul, Vec2.op_neg,
      Vec3.op_add, Vec3.op_mul, Vec3.op_neg,
      Vec4.op_add, Vec4.op_mul, Vec4.op_neg;
    cbn [Vec2.x Vec2.y Vec3.x Vec3.y Vec3.z Vec4.x Vec4.y Vec4.z Vec4.w];
    (split; [| split]); f_equal;
    first [apply Double_add_comm | apply Double_mul_comm
          | apply Double_neg_involutive].
Qed.

(** X14: [normalized()] of Vec2 and of Vec3 never modifies the vector it is
    called on, for every element type and whatever it returns. *)
Theorem normalized_keeps_receiver :
  forall (T : Type) (N : Numeric T),
    (forall v : Vec2.t T,
        match Vec2.normalized v with
        | Ok (_, v') => v' = v
        | Err _ => True
        end) /\
    (forall v : Vec3.t T,
        match Vec3.normalized v with
        | Ok (_, v') => v' = v
        | Err _ => True
        end).
Proof.
  intros T N. split; intros v.
  - destruct (Vec2.normalized v) as [[r v'] | e] eqn:E; [| exact I].
    eapply Vec2_normalized_pure; eassumption.
  - destruct (Vec3.normalized v) as [[r v'] | e] eqn:E; [| exact I].
    eapply Vec3_normalized_pure; eassumption.
Qed.

(** ** The Vec3d tests *)

(** test_length: the three literals, rounded to binary64, and the expected
    38.532752024130666. *)
Example test_length :
  (Vec3.length (Vec3.mk 0x1.55acda9304777p+3 0x1.447006e34d59ap+4
                        0x1.efa33a168d715p+4)
   = 0x1.3443137e4426fp+5)%float.
Proof. reflexivity. Qed.

(** test_normalize: the length after [normalize()] is 1.0. *)
Example test_normalize :
  exists v' : Vec3.t float,
    Vec3.normalize (Vec3.mk 30 50 100)%float = Ok (tt, v') /\
    Vec3.length v' = 1%float.
Proof.
  eexists. split.
  - vm_compute. reflexivity.
  - reflexivity.
Qed.

(** test_operator_overload_vec_mult_scalar. *)
Example test_operator_overload_vec_mult_scalar :
  (Vec3.op_mul_s (Vec3.mk 2 2 2) 2 = Vec3.mk 4 4 4)%float.
Proof. reflexivity. Qed.
